(** * The classifier service of [backend/python/main.py]

    A shallow embedding of the request handler [predict], of the start-up
    sequence that builds the model, and of the library calls both go through
    (Pillow's decoding and resampling, torchvision's transforms, torch's
    [softmax] and [argmax], the state-dict loader, the HTTP boundary).

    Numbers.  The tensors of the program are float32.  Pre-processing is
    modelled in exact rational arithmetic ([Q]).  A score of the network is
    a [Torch.f32]: a number, one of the two infinities or NaN, so that
    [softmax] and [argmax] are followed on the special values as torch
    computes them; a score that is a number is an exact real, and the
    rounding of float32 arithmetic is outside the model.  No statement
    below depends on two rounded values being different or on a rounded sum
    being exact.

    The CORS middleware of the application decides which origins may read a
    response, not what the response is: [Main.respond] gives the status and
    the body of a response, and the middleware with the headers it adds is
    modelled apart, in [Cors] and [App]. *)

From Stdlib Require Import Strings.String Strings.Ascii Strings.Byte.
From Stdlib Require Import Reals Lra Lia ZArith QArith Qround Qabs List Bool Arith.
From Stdlib Require DecimalString.
Import ListNotations.
Close Scope Q_scope.
Close Scope R_scope.
Close Scope Z_scope.

(** ** Exceptions and results *)

(** The Python exceptions that the modelled calls can raise. *)
Inductive exn : Type :=
| UnidentifiedImageError
| FileNotFoundError
| UnpicklingError
| RuntimeError
| TypeError
| ValueError
| IndexError
| HTTPException (status_code : Z).

Inductive result (A : Type) : Type :=
| Ok (a : A)
| Raise (e : exn).
Arguments Ok {A} a.
Arguments Raise {A} e.

Definition bind {A B : Type} (r : result A) (k : A -> result B) : result B :=
  match r with
  | Ok a => k a
  | Raise e => Raise e
  end.

Declare Scope result_scope.
Delimit Scope result_scope with result.
Notation "x <- r ;; k" := (bind r (fun x => k))
  (at level 61, r at next level, right associativity) : result_scope.

(** ** torch: softmax and argmax on a vector of scores *)

Module Torch.
Local Open Scope R_scope.

(** A float32 of a tensor of scores: a number, an infinity or NaN.  The
    numbers are taken as exact reals; what the library documents for NaN
    and the infinities is modelled as it is. *)
Inductive f32 : Type :=
| Num (x : R)
| PInf
| NInf
| NaN.

Definition is_nan (v : f32) : bool :=
  match v with
  | NaN => true
  | _ => false
  end.

Definition sum (l : list R) : R := fold_right Rplus 0 l.

(** Softmax on a row of numbers. *)
Definition softmax_real (logits : list R) : list R :=
  let z := sum (map exp logits) in
  map (fun x => exp x / z) logits.

(** The numbers of a row. *)
Fixpoint numbers (l : list f32) : list R :=
  match l with
  | [] => []
  | Num x :: t => x :: numbers t
  | _ :: t => numbers t
  end.

(** The rows on which softmax is NaN throughout: a NaN or a positive
    infinity among the logits, or no number at all. *)
Definition poisoned (l : list f32) : bool :=
  existsb (fun v => match v with NaN | PInf => true | _ => false end) l ||
  forallb (fun v => match v with Num _ => false | _ => true end) l.

(** [torch.softmax] along the class dimension of one row: the greatest
    logit is subtracted before the exponentials are taken, so that a NaN, a
    positive infinity or a row of negative infinities gives NaN at every
    entry, and otherwise a negative infinity gives 0 and a number [x] gives
    [exp x] over the sum of the exponentials. *)
Definition softmax (logits : list f32) : list f32 :=
  if poisoned logits then map (fun _ => NaN) logits
  else
    let z := sum (map exp (numbers logits)) in
    map (fun v => match v with
                  | Num x => Num (exp x / z)
                  | _ => Num 0
                  end)
        logits.

(** The scan on numbers: the running best index and value; a later entry
    replaces the best only when it is strictly greater, so the first
    maximal entry wins. *)
Fixpoint argmax_scan (best_i : nat) (best : R) (i : nat) (l : list R) : nat :=
  match l with
  | [] => best_i
  | x :: t =>
      if Rlt_dec best x then argmax_scan i x (S i) t
      else argmax_scan best_i best (S i) t
  end.

Definition argmax_real (l : list R) : result nat :=
  match l with
  | [] => Raise IndexError
  | x :: t => Ok (argmax_scan 0 x 1 t)
  end.

(** Whether [x] is strictly greater than [best] for [torch.argmax]: NaN
    counts as the greatest value, then the positive infinity, the numbers
    and the negative infinity. *)
Definition greater (best x : f32) : bool :=
  match best, x with
  | NaN, _ => false
  | _, NaN => true
  | PInf, _ => false
  | _, PInf => true
  | Num a, Num b => if Rlt_dec a b then true else false
  | Num _, NInf => false
  | NInf, Num _ => true
  | NInf, NInf => false
  end.

(** The scan behind [torch.argmax]. *)
Fixpoint argmax_scan32 (best_i : nat) (best : f32) (i : nat) (l : list f32) : nat :=
  match l with
  | [] => best_i
  | x :: t =>
      if greater best x then argmax_scan32 i x (S i) t
      else argmax_scan32 best_i best (S i) t
  end.

(** [torch.argmax] of a one-dimensional tensor; it raises on an empty
    tensor. *)
Definition argmax (l : list f32) : result nat :=
  match l with
  | [] => Raise IndexError
  | x :: t => Ok (argmax_scan32 0 x 1 t)
  end.

(** A tensor plus a constant. *)
Definition add (c : R) (v : f32) : f32 :=
  match v with
  | Num x => Num (x + c)
  | other => other
  end.

(** [t[i]] on a one-dimensional tensor. *)
Definition getitem {A : Type} (l : list A) (i : nat) : result A :=
  match nth_error l i with
  | Some x => Ok x
  | None => Raise IndexError
  end.
End Torch.

(** ** Pillow: decoded images, conversion to RGB, bilinear resampling *)

Module PIL.
Local Open Scope Z_scope.

(** The colour modes modelled: bilevel, greyscale, greyscale with alpha,
    palette, RGB, RGB with alpha. *)
Inductive mode : Type := Mode1 | ModeL | ModeLA | ModeP | ModeRGB | ModeRGBA.

(** One band of an image: rows of 8-bit samples. *)
Definition plane : Type := list (list Z).

Record Image : Type := {
  im_mode : mode;
  im_size : nat * nat;               (* (width, height) *)
  im_bands : list plane;
  im_palette : list (Z * Z * Z)
}.

Definition band (im : Image) (k : nat) : plane := nth k (im_bands im) [].

Definition map_plane {A B : Type} (f : A -> B) (p : list (list A)) : list (list B) :=
  map (map f) p.

Definition palette_entry (im : Image) (i : Z) : Z * Z * Z :=
  nth (Z.to_nat i) (im_palette im) (0, 0, 0).

(** [Image.convert("RGB")]: grey levels are replicated, an alpha band is
    dropped, a bilevel sample becomes 0 or 255, a palette index is looked
    up. *)
Definition convert_RGB (im : Image) : Image :=
  let bands :=
    match im_mode im with
    | Mode1 =>
        let v := map_plane (fun s => if s =? 0 then 0 else 255) (band im 0) in
        [v; v; v]
    | ModeL | ModeLA => [band im 0; band im 0; band im 0]
    | ModeP =>
        [map_plane (fun i => fst (fst (palette_entry im i))) (band im 0);
         map_plane (fun i => snd (fst (palette_entry im i))) (band im 0);
         map_plane (fun i => snd (palette_entry im i)) (band im 0)]
    | ModeRGB | ModeRGBA => [band im 0; band im 1; band im 2]
    end in
  {| im_mode := ModeRGB; im_size := im_size im;
     im_bands := bands; im_palette := [] |}.

(** *** Resampling (the 8-bit path of [Image.resize] with [BILINEAR]) *)

(** The triangle filter, of support 1. *)
Definition bilinear_filter (x : Q) : Q :=
  let x := Qabs x in
  if Qlt_le_dec x 1 then (1 - x)%Q else 0%Q.

(** A C cast from double to int: truncation toward zero. *)
Definition trunc (q : Q) : Z :=
  if Qlt_le_dec q 0 then - Qfloor (- q) else Qfloor q.

Definition qsum (l : list Q) : Q := fold_right Qplus 0%Q l.

(** For each output position, the first input position that contributes
    and the weights of the contributing inputs, normalised to sum 1. *)
Definition precompute_coeffs (inSize outSize : nat) : list (nat * list Q) :=
  let scale := (inject_Z (Z.of_nat inSize) / inject_Z (Z.of_nat outSize))%Q in
  let filterscale := if Qlt_le_dec scale 1 then 1%Q else scale in
  let support := (1 * filterscale)%Q in
  map (fun xx : nat =>
         let center := ((inject_Z (Z.of_nat xx) + (1 # 2)) * scale)%Q in
         let xmin := Z.max 0 (trunc (center - support + (1 # 2))%Q) in
         let xmax := Z.min (Z.of_nat inSize) (trunc (center + support + (1 # 2))%Q) in
         let ws :=
           map (fun x : nat =>
                  bilinear_filter
                    ((inject_Z (Z.of_nat x + xmin) - center + (1 # 2)) / filterscale)%Q)
               (seq 0 (Z.to_nat (xmax - xmin))) in
         let ww := qsum ws in
         (Z.to_nat xmin,
          map (fun w => if Qeq_bool ww 0 then w else (w / ww)%Q) ws))
      (seq 0 outSize).

Definition PRECISION_BITS : Z := 32 - 8 - 2.

(** Weights as fixed-point integers, rounded to nearest. *)
Definition normalize_coeffs_8bpc (kk : list (nat * list Q)) : list (nat * list Z) :=
  map (fun '(xmin, ws) =>
         (xmin,
          map (fun w : Q =>
                 if Qlt_le_dec w 0
                 then trunc (- (1 # 2) + w * inject_Z (Z.shiftl 1 PRECISION_BITS))%Q
                 else trunc ((1 # 2) + w * inject_Z (Z.shiftl 1 PRECISION_BITS))%Q)
              ws))
      kk.

Definition clip8 (v : Z) : Z := Z.max 0 (Z.min 255 (Z.shiftr v PRECISION_BITS)).

(** One output sample: the weighted sum of the inputs [get 0], [get 1], ...
    starting from one half in fixed point. *)
Definition weighted (ks : list Z) (get : nat -> Z) : Z :=
  clip8 (fold_left (fun ss '(i, k) => ss + get i * k)
                   (combine (seq 0 (length ks)) ks)
                   (Z.shiftl 1 (PRECISION_BITS - 1))).

Definition resample_horizontal (kk : list (nat * list Z)) (p : plane) : plane :=
  map (fun row =>
         map (fun '(xmin, ks) => weighted ks (fun i => nth (xmin + i) row 0)) kk)
      p.

Definition resample_vertical (kk : list (nat * list Z)) (width : nat) (p : plane) : plane :=
  map (fun '(ymin, ks) =>
         map (fun x => weighted ks (fun i => nth x (nth (ymin + i) p []) 0))
             (seq 0 width))
      kk.

(** [Image.resize((xsize, ysize), BILINEAR)] on an image without alpha
    and without palette, as the handler calls it after the conversion to
    RGB: a copy when the size is already the requested one, else a
    horizontal pass and a vertical pass, each only when that dimension
    changes. *)
Definition resize (size : nat * nat) (im : Image) : Image :=
  let '(xsize, ysize) := size in
  let '(w, h) := im_size im in
  let horizontal (p : plane) :=
    if Nat.eqb xsize w then p
    else resample_horizontal (normalize_coeffs_8bpc (precompute_coeffs w xsize)) p in
  let vertical (p : plane) :=
    if Nat.eqb ysize h then p
    else resample_vertical (normalize_coeffs_8bpc (precompute_coeffs h ysize)) xsize p in
  {| im_mode := im_mode im; im_size := size;
     im_bands := map (fun p => vertical (horizontal p)) (im_bands im);
     im_palette := im_palette im |}.
End PIL.

(** ** torchvision.transforms *)

Module T.
(** A float tensor of shape C x H x W. *)
Definition tensor : Type := list (list (list Q)).

(** [Resize((h, w))] on a Pillow image: [img.resize((w, h), BILINEAR)]. *)
Definition Resize (size : nat * nat) (im : PIL.Image) : PIL.Image :=
  PIL.resize (snd size, fst size) im.

(** [ToTensor()] on an image of one of the 8-bit modes, which are the
    modes of [PIL.mode]: bands first, samples scaled from 0..255 to 0..1 as
    floats.  (The integer and float modes, which it returns undivided, are
    no modes of the model.) *)
Definition ToTensor (im : PIL.Image) : tensor :=
  map (PIL.map_plane (fun v : Z => (inject_Z v / 255)%Q)) (PIL.im_bands im).

(** A list of per-channel constants against [n] channels: one constant
    for each channel, or a single constant for all of them. *)
Definition broadcast (v : list Q) (n : nat) : option (list Q) :=
  if Nat.eqb (length v) n then Some v
  else match v with
       | [x] => Some (repeat x n)
       | _ => None
       end.

(** [Normalize(mean, std)] on a float tensor: a zero in [std] is refused;
    [mean] and [std] have to have one entry for each channel or a single
    entry, else the subtraction in place raises; then, channel by channel,
    [(x - mean) / std]. *)
Definition Normalize (mean std : list Q) (t : tensor) : result tensor :=
  if existsb (fun s => Qeq_bool s 0) std then Raise ValueError
  else
    match broadcast mean (length t), broadcast std (length t) with
    | Some ms, Some ss =>
        Ok (map (fun '(p, (m, s)) => PIL.map_plane (fun x => ((x - m) / s)%Q) p)
                (combine t (combine ms ss)))
    | _, _ => Raise RuntimeError
    end.

(** [Compose([Resize(size), ToTensor(), Normalize(mean, std)])]. *)
Record Compose : Type := {
  resize_size : nat * nat;
  normalize_mean : list Q;
  normalize_std : list Q
}.

Definition call (c : Compose) (im : PIL.Image) : result tensor :=
  Normalize (normalize_mean c) (normalize_std c)
            (ToTensor (Resize (resize_size c) im)).
End T.

(** ** Model parameters and the loader *)

(** A parameter or buffer of the network: its shape and its entries. *)
Record ParamTensor : Type := {
  shape : list nat;
  data : list R
}.

(** A state dict, as the ordered dictionary [torch.load] returns, without
    its version metadata. *)
Definition StateDict : Type := list (string * ParamTensor).

(** What is at the path [model.pth] given to [torch.load]: nothing, a
    file that does not unpickle (with the exception that unpickling raises,
    which depends on the content), a state dict saved with its version
    metadata, as [torch.save(model.state_dict(), path)] writes it, or the
    entries of a state dict saved without the metadata. *)
Inductive param_file : Type :=
| Missing
| Corrupt (e : exn)
| Pickled (state : StateDict)
| PickledPlain (state : StateDict).

(** ** The collaborators that are not part of the repository *)

(** Pillow's decoder, the network behind [timm.create_model] and the
    hardware probe.  [Image_open] stands for opening and loading the image:
    it is [None] when Pillow raises, which it does with
    [UnidentifiedImageError] or, on truncated data, another [OSError].  The
    network is given by the score of each output unit
    (by mode, parameters and input), by what a forward pass in training mode
    does to the buffers, by the names and shapes of the parameters below the
    classifier, and by its freshly initialised parameters. *)
Class Runtime : Type := {
  Image_open : list byte -> option PIL.Image;
  cuda_is_available : bool;
  backbone_shapes : list (string * list nat);
  init_params : nat -> StateDict;
  net_score : bool -> StateDict -> T.tensor -> nat -> Torch.f32;
  net_train_step : StateDict -> list T.tensor -> StateDict;
  starlette_all_methods : list string
}.

Module Nn.
Record Module : Type := {
  num_classes : nat;
  training : bool;
  params : StateDict
}.

Definition lookup (k : string) (sd : list (string * ParamTensor)) : option ParamTensor :=
  option_map snd (find (fun e => String.eqb (fst e) k) sd).

Definition lookup_shape (k : string) (l : list (string * list nat)) : option (list nat) :=
  option_map snd (find (fun e => String.eqb (fst e) k) l).

Definition shape_eqb (a b : list nat) : bool :=
  if list_eq_dec Nat.eq_dec a b then true else false.

(** The shape of an entry of the state dict against the shape of the
    parameter: the same shape, or a one-dimensional entry for a parameter
    without dimension, of which the loader takes the first element. *)
Definition shape_fits (entry expected : list nat) : bool :=
  shape_eqb entry expected ||
  match expected, entry with
  | [], [S _] => true
  | _, _ => false
  end.

Fixpoint ends_with (suffix s : string) : bool :=
  String.eqb s suffix ||
  match s with
  | EmptyString => false
  | String _ t => ends_with suffix t
  end.

(** The counter of a batch-normalisation layer. *)
Definition is_num_batches_tracked (k : string) : bool :=
  ends_with ".num_batches_tracked" k.

(** The width of the features that enter the classifier of
    efficientnet_b0. *)
Definition num_features : nat := 1280.

Section WithRuntime.
Context {RT : Runtime}.

(** The names and shapes of the parameters of the module: those of the
    backbone, then the weight and the bias of the classifier. *)
Definition expected_shapes (n : nat) : list (string * list nat) :=
  backbone_shapes ++
  [("classifier.weight"%string, [n; num_features]);
   ("classifier.bias"%string, [n])].

(** [timm.create_model(name, pretrained=False, num_classes=n)]; a new
    module is in training mode. *)
Definition create_model (name : string) (n : nat) : result Module :=
  if String.eqb name "efficientnet_b0"
  then Ok {| num_classes := n; training := true; params := init_params n |}
  else Raise RuntimeError.

(** [torch.load(path, map_location=...)]: the state dict, and whether it
    has its version metadata. *)
Definition torch_load (f : param_file) : result (StateDict * bool) :=
  match f with
  | Missing => Raise FileNotFoundError
  | Corrupt e => Raise e
  | Pickled state => Ok (state, true)
  | PickledPlain state => Ok (state, false)
  end.

(** What the batch-normalisation layers do to a state dict without
    version metadata before it is checked: a counter of theirs that is not
    in it is added with the value that the module has. *)
Definition fill_counters (m : Module) (state : StateDict) : StateDict :=
  state ++
  filter (fun e => is_num_batches_tracked (fst e) &&
                   match lookup_shape (fst e) (expected_shapes (num_classes m)) with
                   | Some _ => true
                   | None => false
                   end &&
                   match lookup (fst e) state with
                   | Some _ => false
                   | None => true
                   end)
         (params m).

Definition missing_keys (m : Module) (state : StateDict) : list string :=
  map fst (filter (fun e => match lookup (fst e) state with
                            | Some _ => false
                            | None => true
                            end)
                  (expected_shapes (num_classes m))).

Definition unexpected_keys (m : Module) (state : StateDict) : list string :=
  map fst (filter (fun e => match lookup_shape (fst e) (expected_shapes (num_classes m)) with
                            | Some _ => false
                            | None => true
                            end)
                  state).

Definition size_mismatches (m : Module) (state : StateDict) : list string :=
  map fst (filter (fun e => match lookup (fst e) state with
                            | Some p => negb (shape_fits (shape p) (snd e))
                            | None => false
                            end)
                  (expected_shapes (num_classes m))).

(** [Module.load_state_dict(state)] with the default [strict=True], on
    what [torch.load] returned: the state dict with or without its version
    metadata. *)
Definition load_state_dict (m : Module) (loaded : StateDict * bool) : result Module :=
  let state := if snd loaded then fst loaded else fill_counters m (fst loaded) in
  match missing_keys m state, unexpected_keys m state, size_mismatches m state with
  | [], [], [] =>
      Ok {| num_classes := num_classes m; training := training m; params := state |}
  | _, _, _ => Raise RuntimeError
  end.

(** [Module.to(device)]: the entries are moved, not changed. *)
Definition to (device : string) (m : Module) : Module := m.

(** [Module.eval()]. *)
Definition eval (m : Module) : Module :=
  {| num_classes := num_classes m; training := false; params := params m |}.

(** [model(x)] on a batch: one row of [num_classes] scores per image,
    and the module after the call, whose buffers a pass in training mode
    updates. *)
Definition forward (m : Module) (x : list T.tensor) : list (list Torch.f32) * Module :=
  (map (fun img => map (net_score (training m) (params m) img)
                       (seq 0 (num_classes m)))
       x,
   if training m
   then {| num_classes := num_classes m; training := true;
           params := net_train_step (params m) x |}
   else m).
End WithRuntime.
End Nn.

(** ** main.py *)

Record Prediction : Type := {
  class : string;
  confidence : Torch.f32
}.

(** The module-level objects that the handler reads. *)
Record Globals : Type := {
  g_DEVICE : string;
  g_model : Nn.Module;
  g_CLASS_NAMES : list string;
  g_transform : T.Compose
}.

(** Handler code runs against the globals and may raise: a computation
    returns a result and the globals it leaves behind. *)
Definition M (A : Type) : Type := Globals -> result A * Globals.

Definition ret {A : Type} (a : A) : M A := fun g => (Ok a, g).

Definition raise {A : Type} (e : exn) : M A := fun g => (Raise e, g).

Definition bindM {A B : Type} (c : M A) (k : A -> M B) : M B :=
  fun g =>
    match c g with
    | (Ok a, g') => k a g'
    | (Raise e, g') => (Raise e, g')
    end.

Definition lift {A : Type} (r : result A) : M A := fun g => (r, g).

Definition gets {A : Type} (f : Globals -> A) : M A := fun g => (Ok (f g), g).

Declare Scope handler_scope.
Delimit Scope handler_scope with handler.
Notation "x <- c ;; k" := (bindM c (fun x => k))
  (at level 61, c at next level, right associativity) : handler_scope.

Module Main.
Definition NUM_CLASSES : nat := 4.

Definition CLASS_NAMES : list string :=
  ["Scab"; "Black Rot"; "Cedar Rust"; "Healthy"]%string.

Definition transform : T.Compose :=
  {| T.resize_size := (224, 224)%nat;
     T.normalize_mean := [485 # 1000; 456 # 1000; 406 # 1000]%Q;
     T.normalize_std := [229 # 1000; 224 # 1000; 225 # 1000]%Q |}.

Section WithRuntime.
Context {RT : Runtime}.

Definition DEVICE : string :=
  if cuda_is_available then "cuda"%string else "cpu"%string.

(** Lines 27 to 48: what importing the module does.  An exception here
    leaves no application to serve. *)
Definition startup (model_pth : param_file) : result Globals :=
  (m <- Nn.create_model "efficientnet_b0" NUM_CLASSES ;;
   state <- Nn.torch_load model_pth ;;
   m <- Nn.load_state_dict m state ;;
   Ok {| g_DEVICE := DEVICE;
         g_model := Nn.eval (Nn.to DEVICE m);
         g_CLASS_NAMES := CLASS_NAMES;
         g_transform := transform |})%result.

(** [Image.open(io.BytesIO(data)).convert("RGB")].  Pillow raises
    [UnidentifiedImageError] on data it does not recognise and another
    [OSError] on data that it recognises and cannot load; the handler
    treats both alike, and the one constructor stands for both. *)
Definition open_rgb (data : list byte) : M PIL.Image :=
  match Image_open data with
  | Some im => ret (PIL.convert_RGB im)
  | None => raise UnidentifiedImageError
  end.

(** [model(x)]: the call goes through the module held in the globals
    and leaves there the module as it is after the call. *)
Definition call_model (x : list T.tensor) : M (list (list Torch.f32)) :=
  fun g =>
    let '(logits, m) := Nn.forward (g_model g) x in
    (Ok logits,
     {| g_DEVICE := g_DEVICE g; g_model := m;
        g_CLASS_NAMES := g_CLASS_NAMES g; g_transform := g_transform g |}).

(** The handler of [POST /predict], given the bytes of the uploaded
    file. *)
Definition predict (data : list byte) : M Prediction :=
  (image <- open_rgb data ;;
   tr <- gets g_transform ;;
   t <- lift (T.call tr image) ;;
   let x := [t] in
   logits <- call_model x ;;
   probs <- lift (Torch.getitem (map Torch.softmax logits) 0) ;;
   idx <- lift (Torch.argmax probs) ;;
   names <- gets g_CLASS_NAMES ;;
   c <- lift (Torch.getitem names idx) ;;
   p <- lift (Torch.getitem probs idx) ;;
   ret {| class := c; confidence := p |})%handler.

(** *** The HTTP boundary *)

Inductive Body : Type :=
| Json (p : Prediction)
| Detail
| InternalServerError.

Record Response : Type := {
  status : Z;
  body : Body
}.

(** What the framework sends for the outcome of a handler.  The
    application registers no exception handler: an [HTTPException] is
    answered with its own status, any other exception with 500.  A returned
    prediction is encoded as JSON, which raises [ValueError] on a confidence
    that is NaN or infinite: that too is answered with 500. *)
Definition respond (r : result Prediction) : Response :=
  match r with
  | Ok p =>
      match confidence p with
      | Torch.Num _ => {| status := 200; body := Json p |}
      | _ => {| status := 500; body := InternalServerError |}
      end
  | Raise (HTTPException code) => {| status := code; body := Detail |}
  | Raise _ => {| status := 500; body := InternalServerError |}
  end.

Definition is_client_error (code : Z) : bool := (400 <=? code)%Z && (code <=? 499)%Z.

Definition is_server_error (code : Z) : bool := (500 <=? code)%Z && (code <=? 599)%Z.

(** The process: either the import raised and nothing is served, or
    the application serves with its globals. *)
Inductive Process : Type :=
| Exited (e : exn)
| Serving (g : Globals).

Definition boot (model_pth : param_file) : Process :=
  match startup model_pth with
  | Ok g => Serving g
  | Raise e => Exited e
  end.

(** One upload sent to the process: the response, if there is one, and
    the process afterwards. *)
Definition handle (p : Process) (data : list byte) : option Response * Process :=
  match p with
  | Exited e => (None, Exited e)
  | Serving g =>
      let '(r, g') := predict data g in
      (Some (respond r), Serving g')
  end.

Fixpoint handle_all (p : Process) (uploads : list (list byte)) : list (option Response) * Process :=
  match uploads with
  | [] => ([], p)
  | data :: rest =>
      let '(r, p') := handle p data in
      let '(rs, p'') := handle_all p' rest in
      (r :: rs, p'')
  end.
End WithRuntime.
End Main.

(** ** starlette: response headers and the CORS middleware

    The middleware is followed as [starlette/middleware/cors.py] has it.
    The methods that ["*"] stands for are the module constant
    [ALL_METHODS], which is not the same in every release of the library:
    it is the field [starlette_all_methods] of the collaborators, and no
    statement below fixes it. *)

Module Headers.
(** [str.lower()] on a character of a header. *)
Definition lower_ascii (c : ascii) : ascii :=
  let n := nat_of_ascii c in
  if ((65 <=? n) && (n <=? 90)) || ((192 <=? n) && (n <=? 222) && negb (n =? 215))
  then ascii_of_nat (n + 32)
  else c.

Fixpoint lower (s : string) : string :=
  match s with
  | EmptyString => EmptyString
  | String c t => String (lower_ascii c) (lower t)
  end.

(** Assignment to a key of a Python dict: the value is replaced where the
    key is, or the pair is added at the end. *)
Fixpoint dict_set (k v : string) (d : list (string * string)) : list (string * string) :=
  match d with
  | [] => [(k, v)]
  | (k', v') :: t => if String.eqb k' k then (k, v) :: t else (k', v') :: dict_set k v t
  end.

Definition dict_update (d other : list (string * string)) : list (string * string) :=
  fold_left (fun acc e => dict_set (fst e) (snd e) acc) other d.

(** The raw headers of a response built from a dict: names in lower
    case. *)
Definition init_headers (d : list (string * string)) : list (string * string) :=
  map (fun e => (lower (fst e), snd e)) d.

(** [Headers.get]: the first value under the name. *)
Definition get (k : string) (h : list (string * string)) : option string :=
  option_map snd (find (fun e => String.eqb (fst e) (lower k)) h).

(** [MutableHeaders.__setitem__]: the first entry under the name takes
    the value and the other entries under it are removed; without such an
    entry the header is appended. *)
Definition set (k v : string) (h : list (string * string)) : list (string * string) :=
  let fix replace (l : list (string * string)) : list (string * string) :=
    match l with
    | [] => []
    | e :: t =>
        if String.eqb (fst e) (lower k)
        then (lower k, v) :: filter (fun e' => negb (String.eqb (fst e') (lower k))) t
        else e :: replace t
    end in
  match get k h with
  | Some _ => replace h
  | None => h ++ [(lower k, v)]
  end.

Definition update (h other : list (string * string)) : list (string * string) :=
  fold_left (fun acc e => set (fst e) (snd e) acc) other h.

Definition add_vary_header (vary : string) (h : list (string * string)) : list (string * string) :=
  match get "vary" h with
  | Some existing => set "vary" (String.concat ", " [existing; vary]) h
  | None => set "vary" vary h
  end.
End Headers.

Module Cors.
Definition SAFELISTED_HEADERS : list string :=
  ["Accept"; "Accept-Language"; "Content-Language"; "Content-Type"]%string.

Definition mem (s : string) (l : list string) : bool := existsb (String.eqb s) l.

(** Insertion into a sorted list without duplicates: with [fold_right]
    over a list this gives [sorted(set(...))]. *)
Fixpoint insert_sorted (s : string) (l : list string) : list string :=
  match l with
  | [] => [s]
  | x :: t =>
      match String.compare s x with
      | Lt => s :: x :: t
      | Eq => x :: t
      | Gt => x :: insert_sorted s t
      end
  end.

Definition sorted_set (l : list string) : list string := fold_right insert_sorted [] l.

(** [str(n)] for a natural number. *)
Definition str (n : nat) : string := DecimalString.NilEmpty.string_of_uint (Nat.to_uint n).

(** [s.split(",")]. *)
Fixpoint split_comma (s : string) : list string :=
  match s with
  | EmptyString => [EmptyString]
  | String c t =>
      if Ascii.eqb c ","
      then EmptyString :: split_comma t
      else match split_comma t with
           | w :: ws => String c w :: ws
           | [] => [String c EmptyString]
           end
  end.

Definition is_whitespace (c : ascii) : bool :=
  let n := nat_of_ascii c in
  ((9 <=? n) && (n <=? 13)) || ((28 <=? n) && (n <=? 32)) || (n =? 133) || (n =? 160).

Fixpoint lstrip (s : string) : string :=
  match s with
  | String c t => if is_whitespace c then lstrip t else s
  | EmptyString => EmptyString
  end.

Fixpoint rstrip (s : string) : string :=
  match s with
  | EmptyString => EmptyString
  | String c t =>
      match rstrip t with
      | EmptyString => if is_whitespace c then EmptyString else String c EmptyString
      | t' => String c t'
      end
  end.

(** [s.strip()]. *)
Definition strip (s : string) : string := rstrip (lstrip s).

(** The attributes of a [CORSMiddleware]. *)
Record CORSMiddleware : Type := {
  allow_origins : list string;
  allow_methods : list string;
  allow_headers : list string;
  allow_all_origins : bool;
  allow_all_headers : bool;
  preflight_explicit_allow_origin : bool;
  simple_headers : list (string * string);
  preflight_headers : list (string * string)
}.

(** [CORSMiddleware.__init__], without [allow_origin_regex]. *)
Definition init (ALL_METHODS : list string)
    (allow_origins allow_methods allow_headers : list string)
    (allow_credentials : bool) (expose_headers : list string) (max_age : nat) : CORSMiddleware :=
  let allow_methods := if mem "*" allow_methods then ALL_METHODS else allow_methods in
  let allow_all_origins := mem "*" allow_origins in
  let allow_all_headers := mem "*" allow_headers in
  let preflight_explicit_allow_origin := negb allow_all_origins || allow_credentials in
  let simple_headers := [] in
  let simple_headers :=
    if allow_all_origins
    then Headers.dict_set "Access-Control-Allow-Origin" "*" simple_headers
    else simple_headers in
  let simple_headers :=
    if allow_credentials
    then Headers.dict_set "Access-Control-Allow-Credentials" "true" simple_headers
    else simple_headers in
  let simple_headers :=
    match expose_headers with
    | [] => simple_headers
    | _ => Headers.dict_set "Access-Control-Expose-Headers"
             (String.concat ", " expose_headers) simple_headers
    end in
  let preflight_headers := [] in
  let preflight_headers :=
    if preflight_explicit_allow_origin
    then Headers.dict_set "Vary" "Origin" preflight_headers
    else Headers.dict_set "Access-Control-Allow-Origin" "*" preflight_headers in
  let preflight_headers :=
    Headers.dict_update preflight_headers
      [("Access-Control-Allow-Methods"%string, String.concat ", " allow_methods);
       ("Access-Control-Max-Age"%string, str max_age)] in
  let allow_headers := sorted_set (SAFELISTED_HEADERS ++ allow_headers) in
  let preflight_headers :=
    match allow_headers with
    | [] => preflight_headers
    | _ =>
        if allow_all_headers then preflight_headers
        else Headers.dict_set "Access-Control-Allow-Headers"
               (String.concat ", " allow_headers) preflight_headers
    end in
  let preflight_headers :=
    if allow_credentials
    then Headers.dict_set "Access-Control-Allow-Credentials" "true" preflight_headers
    else preflight_headers in
  {| allow_origins := allow_origins;
     allow_methods := allow_methods;
     allow_headers := map Headers.lower allow_headers;
     allow_all_origins := allow_all_origins;
     allow_all_headers := allow_all_headers;
     preflight_explicit_allow_origin := preflight_explicit_allow_origin;
     simple_headers := simple_headers;
     preflight_headers := preflight_headers |}.

Definition is_allowed_origin (mw : CORSMiddleware) (origin : string) : bool :=
  if allow_all_origins mw then true else mem origin (allow_origins mw).
End Cors.

(** ** The application around the handler *)

Module App.
(** A request to the path [/predict]: its method, the headers that the
    middleware reads, and the bytes of the uploaded file. *)
Record Request : Type := {
  method : string;
  origin : option string;
  access_control_request_method : option string;
  access_control_request_headers : option string;
  cookie : option string;
  upload : list byte
}.

Inductive Content : Type :=
| Payload (b : Main.Body)
| Text (s : string).

(** A response: the headers are those set by the application and the
    middleware; the content type and length, which the response classes
    add, are not listed. *)
Record Reply : Type := {
  status : Z;
  content : Content;
  headers : list (string * string)
}.

(** [CORSMiddleware.preflight_response]. *)
Definition preflight_response (mw : Cors.CORSMiddleware)
    (requested_origin requested_method : string) (requested_headers : option string) : Reply :=
  let headers := Cors.preflight_headers mw in
  let failures : list string := [] in
  let '(headers, failures) :=
    if Cors.is_allowed_origin mw requested_origin
    then (if Cors.preflight_explicit_allow_origin mw
          then Headers.dict_set "Access-Control-Allow-Origin" requested_origin headers
          else headers,
          failures)
    else (headers, failures ++ ["origin"%string]) in
  let failures :=
    if Cors.mem requested_method (Cors.allow_methods mw) then failures
    else failures ++ ["method"%string] in
  let '(headers, failures) :=
    match requested_headers with
    | Some rh =>
        if Cors.allow_all_headers mw
        then (Headers.dict_set "Access-Control-Allow-Headers" rh headers, failures)
        else if forallb (fun h => Cors.mem (Cors.strip h) (Cors.allow_headers mw))
                        (map Headers.lower (Cors.split_comma rh))
        then (headers, failures)
        else (headers, failures ++ ["headers"%string])
    | None => (headers, failures)
    end in
  match failures with
  | [] => {| status := 200; content := Text "OK"; headers := Headers.init_headers headers |}
  | _ => {| status := 400;
            content := Text ("Disallowed CORS " ++ String.concat ", " failures);
            headers := Headers.init_headers headers |}
  end.

Definition allow_explicit_origin (origin : string) (h : list (string * string)) : list (string * string) :=
  Headers.add_vary_header "Origin" (Headers.set "Access-Control-Allow-Origin" origin h).

(** [CORSMiddleware.send]: what the middleware does to the response that
    the inner application starts. *)
Definition send (mw : Cors.CORSMiddleware) (req : Request) (origin : string) (r : Reply) : Reply :=
  let h := Headers.update (headers r) (Cors.simple_headers mw) in
  let has_cookie := match cookie req with Some _ => true | None => false end in
  let h :=
    if Cors.allow_all_origins mw && has_cookie then allow_explicit_origin origin h
    else if negb (Cors.allow_all_origins mw) && Cors.is_allowed_origin mw origin
    then allow_explicit_origin origin h
    else h in
  {| status := status r; content := content r; headers := h |}.

(** [CORSMiddleware.__call__] around an inner application. *)
Definition cors_call (mw : Cors.CORSMiddleware) (inner : Request -> M Reply) (req : Request) : M Reply :=
  match origin req with
  | None => inner req
  | Some o =>
      match String.eqb (method req) "OPTIONS", access_control_request_method req with
      | true, Some m => ret (preflight_response mw o m (access_control_request_headers req))
      | _, _ => (r <- inner req ;; ret (send mw req o r))%handler
      end
  end.

(** [ServerErrorMiddleware.__call__] without debug and without handler:
    an exception that reaches it is answered with 500. *)
Definition server_error (inner : Request -> M Reply) (req : Request) (g : Globals) : Reply * Globals :=
  match inner req g with
  | (Ok r, g') => (r, g')
  | (Raise e, g') =>
      ({| status := 500; content := Payload Main.InternalServerError; headers := [] |}, g')
  end.

(** Lines 13 to 17. *)
Definition origins : list string :=
  ["http://localhost:5173"; "http://127.0.0.1:5173"]%string.

Section WithRuntime.
Context {RT : Runtime}.

(** Lines 19 to 25: the middleware as [add_middleware] builds it, with the
    defaults for [expose_headers] and [max_age]. *)
Definition cors : Cors.CORSMiddleware :=
  Cors.init starlette_all_methods origins ["*"%string] ["*"%string] true [] 600.

(** The router and the exception middleware for the one route of the
    application, [POST /predict]: another method is answered with 405, the
    handler's prediction with 200, an [HTTPException] with its status; any
    other exception goes on, and so does the [ValueError] of the JSON
    encoding of a confidence that is NaN or infinite. *)
Definition routed (req : Request) : M Reply :=
  if String.eqb (method req) "POST" then
    fun g =>
      match Main.predict (upload req) g with
      | (Ok p, g') =>
          match confidence p with
          | Torch.Num _ =>
              (Ok {| status := 200; content := Payload (Main.Json p); headers := [] |}, g')
          | _ => (Raise ValueError, g')
          end
      | (Raise (HTTPException code), g') =>
          (Ok {| status := code; content := Payload Main.Detail; headers := [] |}, g')
      | (Raise e, g') => (Raise e, g')
      end
  else
    ret {| status := 405; content := Payload Main.Detail;
           headers := [("allow"%string, "POST"%string)] |}.

(** Line 10 with the middleware added: the server-error middleware, the
    CORS middleware, the exception middleware and the router, from the
    outside in. *)
Definition app (req : Request) (g : Globals) : Reply * Globals :=
  server_error (cors_call cors routed) req g.
End WithRuntime.
End App.

(** ** Test doubles *)

(** A decoder and a network to run the service on concrete uploads: the
    decoder reads binary PGM and PPM files with 8-bit samples, the network
    has a classifier whose weights are zero, so that its scores are the
    entries of the bias. *)
Module Fixture.
Definition is_space (b : byte) : bool :=
  match b with
  | x09 | x0a | x0b | x0c | x0d | x20 => true
  | _ => false
  end.

Definition digit (b : byte) : option N :=
  let n := Byte.to_N b in
  if ((48 <=? n) && (n <=? 57))%N then Some (n - 48)%N else None.

Fixpoint skip_space (l : list byte) : list byte :=
  match l with
  | b :: t => if is_space b then skip_space t else l
  | [] => []
  end.

Fixpoint read_digits (acc : N) (l : list byte) : N * list byte :=
  match l with
  | b :: t =>
      match digit b with
      | Some d => read_digits (10 * acc + d)%N t
      | None => (acc, l)
      end
  | [] => (acc, [])
  end.

(** A decimal number after optional white space. *)
Definition number (l : list byte) : option (nat * list byte) :=
  match skip_space l with
  | b :: t =>
      match digit b with
      | Some _ => let '(n, rest) := read_digits 0 (b :: t) in Some (N.to_nat n, rest)
      | None => None
      end
  | [] => None
  end.

Fixpoint chunk {A : Type} (n count : nat) (l : list A) : list (list A) :=
  match count with
  | O => []
  | S c => firstn n l :: chunk n c (skipn n l)
  end.

Definition sample (b : byte) : Z := Z.of_N (Byte.to_N b).

Definition pnm_open (data : list byte) : option PIL.Image :=
  match data with
  | x50 :: kind :: rest =>
      match (match kind with
             | x35 => Some (PIL.ModeL, 1%nat)
             | x36 => Some (PIL.ModeRGB, 3%nat)
             | _ => None
             end) with
      | None => None
      | Some (md, nb) =>
          match number rest with
          | None => None
          | Some (w, r1) =>
              match number r1 with
              | None => None
              | Some (h, r2) =>
                  match number r2 with
                  | Some (255%nat, sp :: samples) =>
                      if is_space sp && (0 <? w)%nat && (0 <? h)%nat
                         && (w * h * nb <=? List.length samples)%nat
                      then
                        let pixels := chunk nb (w * h) (map sample samples) in
                        Some {| PIL.im_mode := md; PIL.im_size := (w, h);
                                PIL.im_bands :=
                                  map (fun k => chunk w h (map (fun px => nth k px 0%Z) pixels))
                                      (seq 0 nb);
                                PIL.im_palette := [] |}
                      else None
                  | _ => None
                  end
              end
          end
      end
  | _ => None
  end.

Definition bias_of (sd : StateDict) : list R :=
  match Nn.lookup "classifier.bias" sd with
  | Some p => data p
  | None => []
  end.

#[local] Instance runtime : Runtime := {|
  Image_open := pnm_open;
  cuda_is_available := false;
  backbone_shapes := [("conv_stem.weight"%string, [32; 3; 3; 3])];
  init_params := fun n =>
    [("conv_stem.weight"%string, {| shape := [32; 3; 3; 3]; data := repeat 0%R 864 |});
     ("classifier.weight"%string, {| shape := [n; Nn.num_features]; data := repeat 0%R (n * Nn.num_features) |});
     ("classifier.bias"%string, {| shape := [n]; data := repeat 0%R n |})];
  net_score := fun _ sd _ i => Torch.Num (nth i (bias_of sd) 0%R);
  net_train_step := fun sd _ =>
    map (fun e => (fst e, {| shape := shape (snd e); data := map (Rplus 1) (data (snd e)) |})) sd;
  starlette_all_methods :=
    ["DELETE"; "GET"; "HEAD"; "OPTIONS"; "PATCH"; "POST"; "PUT"]%string
|}.

(** A parameter file with the shapes of a four-class efficientnet_b0 and
    the bias [0.1, 5.0, 0.2, 0.3]. *)
Definition model_pth : StateDict :=
  [("conv_stem.weight"%string, {| shape := [32; 3; 3; 3]; data := repeat 0%R 864 |});
   ("classifier.weight"%string, {| shape := [4; 1280]; data := repeat 0%R (4 * 1280) |});
   ("classifier.bias"%string, {| shape := [4]; data := [0.1; 5.0; 0.2; 0.3]%R |})].

(** The same file saved from a network with five classes. *)
Definition model_pth_5 : StateDict :=
  [("conv_stem.weight"%string, {| shape := [32; 3; 3; 3]; data := repeat 0%R 864 |});
   ("classifier.weight"%string, {| shape := [5; 1280]; data := repeat 0%R (5 * 1280) |});
   ("classifier.bias"%string, {| shape := [5]; data := [0.1; 5.0; 0.2; 0.3; 0.4]%R |})].

(** A PPM file of one red pixel, and a text that is no image. *)
Definition red_pixel_ppm : list byte :=
  list_byte_of_string "P6 1 1 255 " ++ [xff; x00; x00].

Definition hello_txt : list byte := list_byte_of_string "hello, world".

Definition globals : Globals :=
  {| g_DEVICE := "cpu";
     g_model := {| Nn.num_classes := 4; Nn.training := false; Nn.params := model_pth |};
     g_CLASS_NAMES := Main.CLASS_NAMES;
     g_transform := Main.transform |}.
End Fixture.

(** ** Vocabulary of the properties *)

(** The entry of a C x H x W tensor at channel [c], row [i], column [j]. *)
Definition tensor_at (t : T.tensor) (c i j : nat) : option Q :=
  match nth_error t c with
  | Some p =>
      match nth_error p i with
      | Some row => nth_error row j
      | None => None
      end
  | None => None
  end.

(** The RGB image of one pixel. *)
Definition solid_pixel (r g b : Z) : PIL.Image :=
  {| PIL.im_mode := PIL.ModeRGB; PIL.im_size := (1, 1);
     PIL.im_bands := [[[r]]; [[g]]; [[b]]]; PIL.im_palette := [] |}.

(** Lines 57 to 63 as a function of the class names and of the logits of
    the single image of the batch. *)
Definition select (names : list string) (logits : list Torch.f32) : result Prediction :=
  (let probs := Torch.softmax logits in
   idx <- Torch.argmax probs ;;
   c <- Torch.getitem names idx ;;
   p <- Torch.getitem probs idx ;;
   Ok {| class := c; confidence := p |})%result.

(** The invariant of the data model: as many class names as output units. *)
Definition class_invariant (g : Globals) : Prop :=
  List.length (g_CLASS_NAMES g) = Nn.num_classes (g_model g).

(** The width of the final layer of a parameter file: the number of rows
    of the weight of the classifier. *)
Definition final_layer_width (state : StateDict) : option nat :=
  match Nn.lookup "classifier.weight" state with
  | Some p => hd_error (shape p)
  | None => None
  end.

Definition with_model (g : Globals) (m : Nn.Module) : Globals :=
  {| g_DEVICE := g_DEVICE g; g_model := m;
     g_CLASS_NAMES := g_CLASS_NAMES g; g_transform := g_transform g |}.

(** The module as [create_model] returns it in the start-up. *)
Definition fresh_module {RT : Runtime} : Nn.Module :=
  {| Nn.num_classes := Main.NUM_CLASSES; Nn.training := true;
     Nn.params := init_params Main.NUM_CLASSES |}.

(** The logits of one pre-processed image under the module [m]. *)
Definition logits_of {RT : Runtime} (m : Nn.Module) (t : T.tensor) : list Torch.f32 :=
  map (net_score (Nn.training m) (Nn.params m) t) (seq 0 (Nn.num_classes m)).

(** A plane of [h] rows of [w] entries. *)
Definition plane_shape {A : Type} (w h : nat) (p : list (list A)) : Prop :=
  List.length p = h /\ Forall (fun row => List.length row = w) p.

(** Every band of the image has the width and the height of the image. *)
Definition well_shaped (im : PIL.Image) : Prop :=
  Forall (plane_shape (fst (PIL.im_size im)) (snd (PIL.im_size im))) (PIL.im_bands im).

(** Every sample of the image is a byte. *)
Definition eight_bit (im : PIL.Image) : Prop :=
  Forall (Forall (Forall (fun s => (0 <= s <= 255)%Z))) (PIL.im_bands im).

(** The sample of band [c] at row [i] and column [j]. *)
Definition sample_at (im : PIL.Image) (c i j : nat) : option Z :=
  match nth_error (PIL.im_bands im) c with
  | Some p =>
      match nth_error p i with
      | Some row => nth_error row j
      | None => None
      end
  | None => None
  end.

(** What [Normalize] of the transform makes of a sample of channel [c]. *)
Definition normalized (c : nat) (s : Z) : Q :=
  ((inject_Z s / 255 - nth c (T.normalize_mean Main.transform) 0)
   / nth c (T.normalize_std Main.transform) 0)%Q.

(** The state dicts that the loader of a module with [n] output units
    accepts: every parameter of the module is there with its shape, and
    there is no other key. *)
Definition loadable {RT : Runtime} (n : nat) (state : StateDict) : Prop :=
  (forall k shp, In (k, shp) (Nn.expected_shapes n) ->
                 exists p, Nn.lookup k state = Some p /\ shape p = shp) /\
  (forall k p, In (k, p) state -> In k (map fst (Nn.expected_shapes n))).

(** A score that is a number, neither NaN nor an infinity. *)
Definition is_number (v : Torch.f32) : Prop :=
  match v with
  | Torch.Num _ => True
  | _ => False
  end.

(** A float32 in the closed interval from 0 to 1; NaN is in no interval. *)
Definition in_unit_interval (v : Torch.f32) : Prop :=
  match v with
  | Torch.Num x => (0 <= x <= 1)%R
  | _ => False
  end.

(** [q <= v] on float32: false as soon as one of the two is NaN. *)
Definition le32 (q v : Torch.f32) : Prop :=
  match q, v with
  | Torch.NaN, _ | _, Torch.NaN => False
  | Torch.NInf, _ | _, Torch.PInf => True
  | Torch.Num a, Torch.Num b => (a <= b)%R
  | _, _ => False
  end.

(** The number of bands of an image of each mode. *)
Definition mode_bands (md : PIL.mode) : nat :=
  match md with
  | PIL.Mode1 | PIL.ModeL | PIL.ModeP => 1
  | PIL.ModeLA => 2
  | PIL.ModeRGB => 3
  | PIL.ModeRGBA => 4
  end.

(** A decoded image as Pillow hands it over: the bands of its mode, each
    of the size of the image, with bytes as samples and as palette
    entries. *)
Definition valid_image (im : PIL.Image) : Prop :=
  List.length (PIL.im_bands im) = mode_bands (PIL.im_mode im) /\
  well_shaped im /\
  eight_bit im /\
  Forall (fun e : Z * Z * Z =>
            (0 <= fst (fst e) <= 255)%Z /\ (0 <= snd (fst e) <= 255)%Z /\
            (0 <= snd e <= 255)%Z)
         (PIL.im_palette im).

(** ** More test data *)

Module Samples.
(** The parameter file of the test doubles with 1 added to every entry of
    the bias, and the globals of a service started on it. *)
Definition model_pth_shifted : StateDict :=
  [("conv_stem.weight"%string, {| shape := [32; 3; 3; 3]; data := repeat 0%R 864 |});
   ("classifier.weight"%string, {| shape := [4; 1280]; data := repeat 0%R (4 * 1280) |});
   ("classifier.bias"%string,
    {| shape := [4]; data := [0.1 + 1; 5.0 + 1; 0.2 + 1; 0.3 + 1]%R |})].

Definition globals_shifted : Globals :=
  {| g_DEVICE := "cpu";
     g_model := {| Nn.num_classes := 4; Nn.training := false;
                   Nn.params := model_pth_shifted |};
     g_CLASS_NAMES := Main.CLASS_NAMES;
     g_transform := Main.transform |}.

(** The test doubles with a network whose scores are all NaN, as a
    parameter file with NaN entries gives. *)
Definition nan_runtime : Runtime := {|
  Image_open := Fixture.pnm_open;
  cuda_is_available := false;
  backbone_shapes := backbone_shapes (Runtime := Fixture.runtime);
  init_params := init_params (Runtime := Fixture.runtime);
  net_score := fun _ _ _ _ => Torch.NaN;
  net_train_step := net_train_step (Runtime := Fixture.runtime);
  starlette_all_methods := starlette_all_methods (Runtime := Fixture.runtime)
|}.

(** A grey image of one pixel, not converted to RGB. *)
Definition grey_pixel : PIL.Image :=
  {| PIL.im_mode := PIL.ModeL; PIL.im_size := (1, 1);
     PIL.im_bands := [[[128%Z]]]; PIL.im_palette := [] |}.

(** An RGB image of 224 by 224 pixels of one colour. *)
Definition full_size : PIL.Image :=
  {| PIL.im_mode := PIL.ModeRGB; PIL.im_size := (224, 224);
     PIL.im_bands := [repeat (repeat 10%Z 224) 224;
                      repeat (repeat 200%Z 224) 224;
                      repeat (repeat 33%Z 224) 224];
     PIL.im_palette := [] |}.

(** The upload of the red pixel from the development server, the same
    from another site, and a preflight for it. *)
Definition post_local : App.Request :=
  {| App.method := "POST"; App.origin := Some "http://localhost:5173"%string;
     App.access_control_request_method := None;
     App.access_control_request_headers := None;
     App.cookie := None; App.upload := Fixture.red_pixel_ppm |}.

Definition post_foreign : App.Request :=
  {| App.method := "POST"; App.origin := Some "http://example.org"%string;
     App.access_control_request_method := None;
     App.access_control_request_headers := None;
     App.cookie := None; App.upload := Fixture.red_pixel_ppm |}.

Definition preflight_local : App.Request :=
  {| App.method := "OPTIONS"; App.origin := Some "http://localhost:5173"%string;
     App.access_control_request_method := Some "POST"%string;
     App.access_control_request_headers := Some "content-type"%string;
     App.cookie := None; App.upload := [] |}.

Definition get_local : App.Request :=
  {| App.method := "GET"; App.origin := Some "http://localhost:5173"%string;
     App.access_control_request_method := None;
     App.access_control_request_headers := None;
     App.cookie := None; App.upload := [] |}.
End Samples.

(** * Properties *)

(** ** Softmax and argmax *)

Section TorchFacts.
Local Open Scope R_scope.
Import Torch.

Lemma sum_exp_nonneg (l : list R) : 0 <= sum (map exp l).
Proof.
  induction l as [|x l IH]; simpl.
  - lra.
  - pose proof (exp_pos x). lra.
Qed.

Lemma sum_exp_pos (l : list R) : l <> [] -> 0 < sum (map exp l).
Proof.
  destruct l as [|x l]; [congruence|]. intros _. simpl.
  pose proof (exp_pos x). pose proof (sum_exp_nonneg l). lra.
Qed.

Lemma sum_map_div (z : R) (l : list R) :
  sum (map (fun x => x / z) l) = sum l / z.
Proof.
  induction l as [|x l IH]; simpl.
  - unfold Rdiv. ring.
  - rewrite IH. unfold Rdiv. ring.
Qed.

Lemma softmax_as_map (l : list R) :
  softmax_real l = map (fun e => e / sum (map exp l)) (map exp l).
Proof. unfold softmax_real. now rewrite map_map. Qed.

Lemma softmax_real_length (l : list R) : List.length (softmax_real l) = List.length l.
Proof. unfold softmax_real. apply length_map. Qed.

Lemma softmax_nth_error (l : list R) (i : nat) :
  nth_error (softmax_real l) i =
  option_map (fun x => exp x / sum (map exp l)) (nth_error l i).
Proof. unfold softmax_real. apply nth_error_map. Qed.

Lemma softmax_sum (l : list R) : l <> [] -> sum (softmax_real l) = 1.
Proof.
  intros Hl. rewrite softmax_as_map, sum_map_div.
  pose proof (sum_exp_pos l Hl). field. lra.
Qed.

Lemma sum_ge_member (l : list R) (x : R) :
  (forall y, In y l -> 0 <= y) -> In x l -> x <= sum l.
Proof.
  induction l as [|a l IH]; simpl; intros Hpos Hin; [tauto|].
  assert (0 <= sum l).
  { clear IH Hin. induction l as [|b l IHl]; simpl; [lra|].
    assert (0 <= b) by (apply Hpos; simpl; auto).
    assert (0 <= sum l) by (apply IHl; intros y Hy; apply Hpos; simpl in *; tauto).
    lra. }
  destruct Hin as [->|Hin].
  - lra.
  - assert (0 <= a) by (apply Hpos; auto).
    assert (x <= sum l) by (apply IH; auto). lra.
Qed.

Lemma softmax_range (l : list R) (p : R) : In p (softmax_real l) -> 0 < p <= 1.
Proof.
  intros Hin. unfold softmax_real in Hin. apply in_map_iff in Hin.
  destruct Hin as [x [<- Hx]].
  assert (Hne : l <> []) by (destruct l; [contradiction | congruence]).
  pose proof (sum_exp_pos l Hne) as Hz. pose proof (exp_pos x) as He.
  assert (exp x <= sum (map exp l)).
  { apply sum_ge_member.
    - intros y Hy. apply in_map_iff in Hy. destruct Hy as [u [<- _]].
      apply Rlt_le, exp_pos.
    - now apply in_map. }
  split.
  - now apply Rdiv_lt_0_compat.
  - apply Rmult_le_reg_r with (r := sum (map exp l)); [assumption|].
    unfold Rdiv. rewrite Rmult_assoc, Rinv_l by lra. lra.
Qed.

(** The scan returns a position of the list or the running best, the
    value there bounds the running best and every entry, and strictly
    bounds what comes before it. *)
Lemma argmax_scan_spec (l : list R) :
  forall best_i best i,
    (best_i < i)%nat ->
    let r := argmax_scan best_i best i l in
    let v := if (r <? i)%nat then best else nth (r - i) l 0 in
    ((r = best_i /\ (r < i)%nat) \/ (i <= r < i + List.length l)%nat) /\
    best <= v /\
    (forall x, In x l -> x <= v) /\
    (forall j, (i <= j < r)%nat -> nth (j - i) l 0 < v) /\
    ((i <= r)%nat -> best < v).
Proof.
  induction l as [|x l IH]; intros best_i best i Hlt; cbn zeta.
  - cbn [argmax_scan List.length].
    assert (Hb : (best_i <? i)%nat = true) by (apply Nat.ltb_lt; lia).
    rewrite Hb. split; [|split; [|split; [|split]]].
    + left; split; [reflexivity | lia].
    + lra.
    + intros y [].
    + intros j Hj. lia.
    + intros Hi. lia.
  - cbn [argmax_scan List.length]. destruct (Rlt_dec best x) as [Hbx|Hbx].
    + specialize (IH i x (S i) (Nat.lt_succ_diag_r i)). cbn zeta in IH.
      destruct IH as (Hpos & Hbest & Hall & Hbefore & Hstrict).
      set (r := argmax_scan i x (S i) l) in *.
      assert (Hri : (i <= r)%nat) by lia.
      assert (Hb : (r <? i)%nat = false) by (apply Nat.ltb_ge; lia).
      rewrite Hb.
      assert (Hv : (if (r <? S i)%nat then x else nth (r - S i) l 0) = nth (r - i) (x :: l) 0).
      { destruct (Nat.ltb_spec r (S i)).
        - replace (r - i)%nat with 0%nat by lia. reflexivity.
        - replace (r - i)%nat with (S (r - S i)) by lia. reflexivity. }
      rewrite Hv in *.
      split; [|split; [|split; [|split]]].
      * right. lia.
      * lra.
      * intros y [<-|Hy]; [assumption | now apply Hall].
      * intros j Hj. destruct (Nat.eq_dec j i) as [->|Hne].
        -- replace (i - i)%nat with 0%nat by lia. cbn [nth].
           destruct (Nat.eq_dec r i) as [Hr|Hr]; [lia|].
           apply Hstrict. lia.
        -- replace (j - i)%nat with (S (j - S i)) by lia. cbn [nth].
           apply Hbefore. lia.
      * intros _. lra.
    + specialize (IH best_i best (S i) (Nat.lt_lt_succ_r _ _ Hlt)). cbn zeta in IH.
      destruct IH as (Hpos & Hbest & Hall & Hbefore & Hstrict).
      set (r := argmax_scan best_i best (S i) l) in *.
      assert (Hr : r <> i).
      { destruct Hpos as [[-> _]|]; lia. }
      assert (Hv : (if (r <? S i)%nat then best else nth (r - S i) l 0) =
                   (if (r <? i)%nat then best else nth (r - i) (x :: l) 0)).
      { destruct (Nat.ltb_spec r (S i)); destruct (Nat.ltb_spec r i); try lia; try reflexivity.
        replace (r - i)%nat with (S (r - S i)) by lia. reflexivity. }
      rewrite <- Hv.
      split; [|split; [|split; [|split]]].
      * destruct Hpos as [[-> H]|H]; [left; split; [reflexivity|lia] | right; lia].
      * assumption.
      * intros y [<-|Hy]; [lra | now apply Hall].
      * intros j Hj. destruct (Nat.eq_dec j i) as [->|Hne].
        -- replace (i - i)%nat with 0%nat by lia. cbn [nth].
           assert (best < (if (r <? S i)%nat then best else nth (r - S i) l 0)) by (apply Hstrict; lia).
           lra.
        -- replace (j - i)%nat with (S (j - S i)) by lia. cbn [nth].
           apply Hbefore. lia.
      * intros Hi. apply Hstrict. lia.
Qed.

(** [argmax_real] of a non-empty vector: an index of the vector whose entry
    bounds every entry and strictly bounds every earlier entry. *)
Lemma argmax_spec (l : list R) (i : nat) :
  argmax_real l = Ok i ->
  exists v,
    nth_error l i = Some v /\
    (forall x, In x l -> x <= v) /\
    (forall j w, (j < i)%nat -> nth_error l j = Some w -> w < v).
Proof.
  destruct l as [|x t]; [discriminate|].
  cbn [argmax_real]. intros [= <-].
  pose proof (argmax_scan_spec t 0%nat x 1%nat Nat.lt_0_1) as H. cbn zeta in H.
  destruct H as (Hpos & Hbest & Hall & Hbefore & Hstrict).
  set (r := argmax_scan 0 x 1 t) in *.
  set (v := if (r <? 1)%nat then x else nth (r - 1) t 0) in *.
  assert (Hv : nth_error (x :: t) r = Some v).
  { subst v. destruct (Nat.ltb_spec r 1).
    - replace r with 0%nat by lia. reflexivity.
    - destruct r as [|r']; [lia|]. cbn [nth_error].
      replace (S r' - 1)%nat with r' by lia.
      apply nth_error_nth'. lia. }
  exists v. split; [exact Hv|]. split.
  - intros y [<-|Hy]; [exact Hbest | now apply Hall].
  - intros j w Hj Hw. destruct j as [|j'].
    + cbn in Hw. injection Hw as <-. apply Hstrict. lia.
    + cbn [nth_error] in Hw.
      assert (Hjw : nth (S j' - 1) t 0 < v) by (apply Hbefore; lia).
      replace (S j' - 1)%nat with j' in Hjw by lia.
      now rewrite (nth_error_nth _ _ 0 Hw) in Hjw.
Qed.

Lemma argmax_nonempty (l : list R) :
  l <> [] -> exists i, argmax_real l = Ok i /\ (i < List.length l)%nat.
Proof.
  destruct l as [|x t]; [congruence|]. intros _.
  eexists. split; [reflexivity|].
  destruct (argmax_spec (x :: t) _ eq_refl) as [v [Hv _]].
  apply nth_error_Some. congruence.
Qed.

Lemma argmax_scan_map (f : R -> R) :
  (forall a b, a < b -> f a < f b) ->
  forall l best_i best i,
    argmax_scan best_i (f best) i (map f l) = argmax_scan best_i best i l.
Proof.
  intros Hf. induction l as [|x l IH]; intros best_i best i; cbn [map argmax_scan].
  - reflexivity.
  - destruct (Rlt_dec best x) as [Hlt|Hge]; destruct (Rlt_dec (f best) (f x)) as [Hlt'|Hge'].
    + apply IH.
    + exfalso. apply Hge'. now apply Hf.
    + exfalso. destruct (Rtotal_order x best) as [H|[H|H]].
      * apply Hf in H. lra.
      * subst. lra.
      * contradiction.
    + apply IH.
Qed.

(** Softmax keeps the order of the scores, so the selected index is that
    of the first greatest logit. *)
Lemma argmax_softmax (l : list R) : argmax_real (softmax_real l) = argmax_real l.
Proof.
  destruct l as [|x t]; [reflexivity|].
  unfold softmax_real. set (z := sum (map exp (x :: t))).
  assert (Hz : 0 < z) by (apply sum_exp_pos; congruence).
  cbn [map argmax_real]. f_equal.
  apply (argmax_scan_map (fun y => exp y / z)).
  intros a b Hab. apply Rmult_lt_compat_r.
  - now apply Rinv_0_lt_compat.
  - now apply exp_increasing.
Qed.

Lemma argmax_example : argmax_real [0.1; 5.0; 0.2; 0.3] = Ok 1%nat.
Proof.
  cbn [argmax_real argmax_scan].
  destruct (Rlt_dec 0.1 5.0) as [_|H]; [|exfalso; apply H; lra].
  destruct (Rlt_dec 5.0 0.2) as [H|_]; [exfalso; lra|].
  destruct (Rlt_dec 5.0 0.3) as [H|_]; [exfalso; lra|].
  reflexivity.
Qed.

(** Of two equal greatest entries the first is selected. *)
Lemma argmax_tie_example : argmax_real [1; 3; 3; 2] = Ok 1%nat.
Proof.
  cbn [argmax_real argmax_scan].
  destruct (Rlt_dec 1 3) as [_|H]; [|exfalso; apply H; lra].
  destruct (Rlt_dec 3 3) as [H|_]; [exfalso; lra|].
  destruct (Rlt_dec 3 2) as [H|_]; [exfalso; lra|].
  reflexivity.
Qed.
(** *** Rows of float32 *)

Lemma softmax_length (l : list f32) : List.length (softmax l) = List.length l.
Proof. unfold softmax. destruct (poisoned l); apply length_map. Qed.

Lemma numbers_map_Num (l : list R) : numbers (map Num l) = l.
Proof. induction l as [|x l IH]; cbn [map numbers]; [reflexivity | now rewrite IH]. Qed.

Lemma poisoned_map_Num (l : list R) : l <> [] -> poisoned (map Num l) = false.
Proof.
  intros Hl. unfold poisoned. apply orb_false_intro.
  - induction l as [|x l IH]; [congruence|]. cbn [map existsb orb].
    destruct l as [|y l]; [reflexivity|]. apply IH. congruence.
  - destruct l as [|x l]; [congruence | reflexivity].
Qed.

(** On a row of numbers softmax is the softmax of the numbers. *)
Lemma softmax_map_Num (l : list R) : softmax (map Num l) = map Num (softmax_real l).
Proof.
  destruct l as [|x t]; [reflexivity|].
  unfold softmax. rewrite poisoned_map_Num by congruence.
  rewrite numbers_map_Num. unfold softmax_real. now rewrite !map_map.
Qed.

(** Softmax gives NaN at every entry, or a number at every entry. *)
Lemma softmax_cases (l : list f32) :
  softmax l = map (fun _ => NaN) l \/ exists ps, softmax l = map Num ps.
Proof.
  unfold softmax. destruct (poisoned l); [now left|]. right.
  exists (map (fun v => match v with
                        | Num x => exp x / sum (map exp (numbers l))
                        | _ => 0
                        end) l).
  rewrite map_map. apply map_ext. now intros [x| | |].
Qed.

Lemma argmax_scan32_map_Num (l : list R) :
  forall best_i best i,
    argmax_scan32 best_i (Num best) i (map Num l) = argmax_scan best_i best i l.
Proof.
  induction l as [|x l IH]; intros best_i best i; cbn [map argmax_scan32 argmax_scan greater].
  - reflexivity.
  - destruct (Rlt_dec best x); apply IH.
Qed.

Lemma argmax_map_Num (l : list R) : argmax (map Num l) = argmax_real l.
Proof.
  destruct l as [|x t]; [reflexivity|]. cbn [map argmax argmax_real].
  now rewrite argmax_scan32_map_Num.
Qed.

Lemma argmax_scan32_NaN (l : list f32) (best_i i : nat) :
  argmax_scan32 best_i NaN i l = best_i.
Proof.
  revert i. induction l as [|x l IH]; intros i; cbn [argmax_scan32 greater]; [reflexivity|].
  apply IH.
Qed.

(** On a row of NaN the first index is selected. *)
Lemma argmax_all_NaN {A : Type} (l : list A) :
  l <> [] -> argmax (map (fun _ => NaN) l) = Ok 0%nat.
Proof.
  destruct l as [|x t]; [congruence|]. intros _. cbn [map argmax].
  now rewrite argmax_scan32_NaN.
Qed.

(** What [torch.argmax] selects on the output of softmax: a position of
    the row whose entry no entry is greater than, and which is greater than
    every earlier entry. *)
Lemma argmax_softmax_spec (logits : list f32) (idx : nat) :
  argmax (softmax logits) = Ok idx ->
  exists v,
    nth_error (softmax logits) idx = Some v /\
    (forall q, In q (softmax logits) -> greater v q = false) /\
    (forall j q, (j < idx)%nat -> nth_error (softmax logits) j = Some q -> greater q v = true).
Proof.
  destruct (softmax_cases logits) as [Hs|[ps Hs]]; rewrite Hs.
  - destruct logits as [|x t]; [discriminate|].
    rewrite argmax_all_NaN by congruence. intros [= <-].
    exists NaN. split; [reflexivity|]. split; [reflexivity|]. intros j q Hj. lia.
  - rewrite argmax_map_Num. intros Hidx.
    destruct (argmax_spec _ _ Hidx) as (v & Hv & Hmax & Hfirst).
    exists (Num v). split; [now rewrite nth_error_map, Hv|]. split.
    + intros q Hq. apply in_map_iff in Hq. destruct Hq as [q' [<- Hq']].
      cbn [greater]. specialize (Hmax q' Hq').
      destruct (Rlt_dec v q'); [lra | reflexivity].
    + intros j q Hj Hq. rewrite nth_error_map in Hq.
      destruct (nth_error ps j) as [w|] eqn:Hw; [|discriminate].
      injection Hq as <-. cbn [greater]. specialize (Hfirst j w Hj Hw).
      destruct (Rlt_dec w v); [reflexivity | lra].
Qed.

Lemma argmax_softmax_nonempty (logits : list f32) :
  logits <> [] ->
  exists idx, argmax (softmax logits) = Ok idx /\ (idx < List.length logits)%nat.
Proof.
  intros Hne. destruct (softmax_cases logits) as [Hs|[ps Hs]].
  - rewrite Hs, argmax_all_NaN by assumption. exists 0%nat. split; [reflexivity|].
    destruct logits; [congruence | cbn; lia].
  - assert (Hlen : List.length ps = List.length logits).
    { rewrite <- (length_map Num ps), <- Hs. apply softmax_length. }
    rewrite Hs, argmax_map_Num.
    destruct (argmax_nonempty ps) as [idx [Hidx Hlt]].
    { intros ->. destruct logits; [congruence | discriminate]. }
    exists idx. split; [exact Hidx | now rewrite <- Hlen].
Qed.
End TorchFacts.

(** ** Start-up *)

Section StartupFacts.
Context {RT : Runtime}.

(** The start-up in terms of the loader. *)
Lemma startup_unfold (f : param_file) :
  Main.startup f =
  match Nn.torch_load f with
  | Ok loaded =>
      match Nn.load_state_dict fresh_module loaded with
      | Ok m =>
          Ok {| g_DEVICE := Main.DEVICE;
                g_model := Nn.eval (Nn.to Main.DEVICE m);
                g_CLASS_NAMES := Main.CLASS_NAMES;
                g_transform := Main.transform |}
      | Raise e => Raise e
      end
  | Raise e => Raise e
  end.
Proof.
  unfold Main.startup, Nn.create_model. cbn [String.eqb Ascii.eqb Bool.eqb bind].
  fold fresh_module. destruct (Nn.torch_load f) as [loaded|e]; cbn [bind]; [|reflexivity].
  destruct (Nn.load_state_dict fresh_module loaded); reflexivity.
Qed.

Lemma load_state_dict_ok (m m' : Nn.Module) (loaded : StateDict * bool) :
  Nn.load_state_dict m loaded = Ok m' ->
  Nn.num_classes m' = Nn.num_classes m /\ Nn.training m' = Nn.training m /\
  Nn.params m' = (if snd loaded then fst loaded else Nn.fill_counters m (fst loaded)).
Proof.
  unfold Nn.load_state_dict. cbn zeta.
  destruct (Nn.missing_keys m _); [|discriminate].
  destruct (Nn.unexpected_keys m _); [|discriminate].
  destruct (Nn.size_mismatches m _); [|discriminate].
  intros [= <-]. repeat split.
Qed.

(** A start-up that succeeds leaves the module in evaluation mode with
    [NUM_CLASSES] output units, beside the class names and the
    transform. *)
Lemma startup_eval (f : param_file) (g : Globals) :
  Main.startup f = Ok g ->
  Nn.training (g_model g) = false /\
  Nn.num_classes (g_model g) = Main.NUM_CLASSES /\
  g_CLASS_NAMES g = Main.CLASS_NAMES /\
  g_transform g = Main.transform.
Proof.
  rewrite startup_unfold.
  destruct (Nn.torch_load f) as [loaded|e]; [|discriminate].
  destruct (Nn.load_state_dict fresh_module loaded) as [m|e] eqn:Hl; [|discriminate].
  intros [= <-]. destruct (load_state_dict_ok _ _ _ Hl) as (Hn & _ & _).
  cbn [g_model g_CLASS_NAMES g_transform Nn.eval Nn.to Nn.training Nn.num_classes].
  repeat split. exact Hn.
Qed.
End StartupFacts.

(** ** Pre-processing *)

Section TransformFacts.
Local Open Scope Z_scope.

Lemma map_seq_const {A : Type} (f : nat -> A) (a : A) (n s : nat) :
  (forall x, (s <= x < s + n)%nat -> f x = a) -> map f (seq s n) = repeat a n.
Proof.
  revert s. induction n as [|n IH]; intros s H; cbn [seq map repeat].
  - reflexivity.
  - rewrite (H s) by lia. f_equal. apply IH. intros x Hx. apply H. lia.
Qed.

Lemma nth_repeat_inside {A : Type} (a d : A) (n x : nat) :
  (x < n)%nat -> nth x (repeat a n) d = a.
Proof.
  revert x. induction n as [|n IH]; intros x Hx; [lia|].
  destruct x as [|x]; cbn [repeat nth]; [reflexivity|]. apply IH. lia.
Qed.

Lemma nth_error_repeat_inside {A : Type} (a : A) (n x : nat) :
  (x < n)%nat -> nth_error (repeat a n) x = Some a.
Proof.
  revert x. induction n as [|n IH]; intros x Hx; [lia|].
  destruct x as [|x]; cbn [repeat nth_error]; [reflexivity|]. apply IH. lia.
Qed.

(** From one input position to 224 outputs every output takes the whole
    of the single input: the weight is 1, that is [2^22] in fixed point. *)
Lemma coeffs_1_224 :
  PIL.normalize_coeffs_8bpc (PIL.precompute_coeffs 1 224) =
  repeat (0%nat, [4194304]) 224.
Proof. vm_compute. reflexivity. Qed.

Lemma weighted_unit (get : nat -> Z) :
  0 <= get 0%nat <= 255 -> PIL.weighted [4194304] get = get 0%nat.
Proof.
  intros Hv. unfold PIL.weighted, PIL.clip8.
  cbn [List.length seq combine fold_left].
  replace PIL.PRECISION_BITS with 22 by reflexivity.
  rewrite Z.shiftr_div_pow2 by lia.
  replace (Z.shiftl 1 (22 - 1)) with 2097152 by reflexivity.
  replace (2 ^ 22) with 4194304 by reflexivity.
  rewrite Z.div_add by lia.
  replace (2097152 / 4194304) with 0 by reflexivity.
  lia.
Qed.

(** Resizing one sample to 224 x 224 repeats the sample. *)
Lemma resize_single_sample (v : Z) :
  0 <= v <= 255 ->
  PIL.resample_vertical (PIL.normalize_coeffs_8bpc (PIL.precompute_coeffs 1 224)) 224
    (PIL.resample_horizontal (PIL.normalize_coeffs_8bpc (PIL.precompute_coeffs 1 224)) [[v]]) =
  repeat (repeat v 224) 224.
Proof.
  intros Hv. rewrite coeffs_1_224.
  unfold PIL.resample_horizontal, PIL.resample_vertical.
  cbn [map]. rewrite !map_repeat.
  rewrite (weighted_unit (fun i => nth (0 + i) [v] 0)) by (cbn [Nat.add nth]; lia).
  cbn [Nat.add nth]. f_equal.
  apply map_seq_const. intros x Hx.
  rewrite weighted_unit; cbn [Nat.add nth]; rewrite nth_repeat_inside by lia; lia.
Qed.

Lemma resize_solid_pixel (r g b : Z) :
  0 <= r <= 255 -> 0 <= g <= 255 -> 0 <= b <= 255 ->
  PIL.im_bands (T.Resize (224, 224)%nat (solid_pixel r g b)) =
  [repeat (repeat r 224) 224; repeat (repeat g 224) 224; repeat (repeat b 224) 224].
Proof.
  intros Hr Hg Hb. unfold T.Resize, PIL.resize, solid_pixel.
  cbn [fst snd PIL.im_size PIL.im_bands PIL.im_mode PIL.im_palette map].
  replace (Nat.eqb 224 1) with false by reflexivity.
  now rewrite !resize_single_sample.
Qed.

Lemma map_plane_repeat {A B : Type} (f : A -> B) (a : A) (n m : nat) :
  PIL.map_plane f (repeat (repeat a n) m) = repeat (repeat (f a) n) m.
Proof. unfold PIL.map_plane. now rewrite !map_repeat. Qed.

Lemma transform_solid_pixel (r g b : Z) :
  0 <= r <= 255 -> 0 <= g <= 255 -> 0 <= b <= 255 ->
  T.call Main.transform (solid_pixel r g b) =
  Ok [repeat (repeat ((inject_Z r / 255 - (485 # 1000)) / (229 # 1000))%Q 224) 224;
      repeat (repeat ((inject_Z g / 255 - (456 # 1000)) / (224 # 1000))%Q 224) 224;
      repeat (repeat ((inject_Z b / 255 - (406 # 1000)) / (225 # 1000))%Q 224) 224].
Proof.
  intros Hr Hg Hb. unfold T.call, T.ToTensor.
  cbn [Main.transform T.resize_size T.normalize_mean T.normalize_std].
  rewrite resize_solid_pixel by assumption.
  cbn [map]. rewrite !map_plane_repeat.
  unfold T.Normalize.
  replace (existsb _ _) with false by reflexivity.
  cbn [List.length Nat.eqb T.broadcast combine map].
  now rewrite !map_plane_repeat.
Qed.

(** After conversion to RGB an image has three bands, so the composed
    transform does not raise. *)
Lemma transform_converted (im : PIL.Image) :
  exists t, T.call Main.transform (PIL.convert_RGB im) = Ok t.
Proof.
  unfold T.call, T.Normalize.
  cbn [Main.transform T.resize_size T.normalize_mean T.normalize_std].
  replace (existsb _ _) with false by reflexivity.
  assert (Hlen : List.length (T.ToTensor (T.Resize (224, 224)%nat (PIL.convert_RGB im))) = 3%nat).
  { unfold T.ToTensor, T.Resize, PIL.resize, PIL.convert_RGB.
    cbn [fst snd PIL.im_size PIL.im_bands PIL.im_mode PIL.im_palette].
    destruct (PIL.im_size im) as [w h].
    cbn [PIL.im_bands]. rewrite !length_map.
    destruct (PIL.im_mode im); reflexivity. }
  rewrite Hlen. cbn [List.length Nat.eqb T.broadcast]. eexists. reflexivity.
Qed.
End TransformFacts.

(** ** The handler *)

Section HandlerFacts.
Context {RT : Runtime}.

Lemma forward_single (m : Nn.Module) (t : T.tensor) :
  fst (Nn.forward m [t]) = [logits_of m t].
Proof. reflexivity. Qed.

Lemma forward_rows (m : Nn.Module) (x : list T.tensor) (logits : list Torch.f32) :
  In logits (fst (Nn.forward m x)) -> List.length logits = Nn.num_classes m.
Proof.
  unfold Nn.forward. cbn [fst]. intros H. apply in_map_iff in H.
  destruct H as [t [<- _]]. now rewrite length_map, length_seq.
Qed.

Lemma forward_eval (m : Nn.Module) (x : list T.tensor) :
  Nn.training m = false -> snd (Nn.forward m x) = m.
Proof. intros H. unfold Nn.forward. now rewrite H. Qed.

Lemma forward_num_classes (m : Nn.Module) (x : list T.tensor) :
  Nn.num_classes (snd (Nn.forward m x)) = Nn.num_classes m.
Proof. unfold Nn.forward. now destruct (Nn.training m). Qed.

(** An upload that does not decode: the handler raises at its first
    line and touches nothing. *)
Lemma predict_undecodable (g : Globals) (data : list byte) :
  Image_open data = None ->
  Main.predict data g = (Raise UnidentifiedImageError, g).
Proof.
  intros H. unfold Main.predict, bindM, Main.open_rgb. now rewrite H.
Qed.

(** An upload that decodes, pre-processed to [t]: the handler returns what
    [select] makes of the logits, and leaves the globals with the module
    as the forward pass left it. *)
Lemma predict_decoded (g : Globals) (data : list byte) (im : PIL.Image) (t : T.tensor) :
  Image_open data = Some im ->
  T.call (g_transform g) (PIL.convert_RGB im) = Ok t ->
  Main.predict data g =
  (select (g_CLASS_NAMES g) (logits_of (g_model g) t),
   with_model g (snd (Nn.forward (g_model g) [t]))).
Proof.
  intros Hopen Ht. unfold Main.predict, bindM, Main.open_rgb.
  rewrite Hopen. unfold ret, gets, lift. rewrite Ht.
  unfold Main.call_model.
  destruct (Nn.forward (g_model g) [t]) as [logits m] eqn:Hfw.
  assert (Hl : logits = [logits_of (g_model g) t]).
  { pose proof (forward_single (g_model g) t) as H. now rewrite Hfw in H. }
  subst logits. cbn [map Torch.getitem nth_error snd g_CLASS_NAMES].
  fold (with_model g m). unfold select. cbn zeta.
  destruct (Torch.argmax (Torch.softmax (logits_of (g_model g) t))) as [idx|e]; cbn [bind]; [|reflexivity].
  destruct (Torch.getitem (g_CLASS_NAMES g) idx) as [c|e]; cbn [bind]; [|reflexivity].
  destruct (Torch.getitem (Torch.softmax (logits_of (g_model g) t)) idx) as [p|e]; reflexivity.
Qed.

(** In evaluation mode the handler leaves the globals as they were. *)
Lemma predict_frame (g : Globals) (data : list byte) :
  Nn.training (g_model g) = false -> snd (Main.predict data g) = g.
Proof.
  intros Hev. destruct (Image_open data) as [im|] eqn:Hopen.
  - destruct (T.call (g_transform g) (PIL.convert_RGB im)) as [t|e] eqn:Ht.
    + rewrite (predict_decoded g data im t Hopen Ht). cbn [snd].
      rewrite forward_eval by assumption. now destruct g.
    + unfold Main.predict, bindM, Main.open_rgb. rewrite Hopen.
      unfold ret, gets, lift. now rewrite Ht.
  - now rewrite predict_undecodable.
Qed.

(** [select] on as many logits as there are names, and at least one:
    a name of the list, with the greatest probability. *)
Lemma select_ok (names : list string) (logits : list Torch.f32) :
  logits <> [] -> List.length names = List.length logits ->
  exists idx c p,
    Torch.argmax (Torch.softmax logits) = Ok idx /\
    nth_error names idx = Some c /\
    nth_error (Torch.softmax logits) idx = Some p /\
    select names logits = Ok {| class := c; confidence := p |}.
Proof.
  intros Hne Hlen.
  destruct (argmax_softmax_nonempty _ Hne) as [idx [Hidx Hlt]].
  destruct (nth_error names idx) as [c|] eqn:Hc.
  2:{ apply nth_error_None in Hc. lia. }
  destruct (nth_error (Torch.softmax logits) idx) as [p|] eqn:Hp.
  2:{ apply nth_error_None in Hp. rewrite softmax_length in Hp. lia. }
  exists idx, c, p. repeat split; try assumption.
  unfold select, Torch.getitem. cbn zeta. rewrite Hidx. cbn [bind].
  rewrite Hc. cbn [bind]. now rewrite Hp.
Qed.

(** The process after any uploads is the process that booted. *)
Lemma handle_frame (f : param_file) (data : list byte) :
  snd (Main.handle (Main.boot f) data) = Main.boot f.
Proof.
  unfold Main.boot. destruct (Main.startup f) as [g|e] eqn:Hs; cbn [Main.handle]; [|reflexivity].
  destruct (startup_eval f g Hs) as (Hev & _).
  pose proof (predict_frame g data Hev) as H.
  destruct (Main.predict data g) as [r g']. cbn [snd] in *. now subst.
Qed.

Lemma handle_all_frame (f : param_file) (uploads : list (list byte)) :
  snd (Main.handle_all (Main.boot f) uploads) = Main.boot f.
Proof.
  induction uploads as [|data rest IH]; cbn [Main.handle_all]; [reflexivity|].
  pose proof (handle_frame f data) as H.
  destruct (Main.handle (Main.boot f) data) as [r p']. cbn [snd] in H. subst p'.
  destruct (Main.handle_all (Main.boot f) rest) as [rs p'']. exact IH.
Qed.
End HandlerFacts.

(** * The claims *)

Section Claims.
Context {RT : Runtime}.
Local Open Scope R_scope.

(** What the handler returns for an upload that decodes, once the
    service has started: the transform succeeds on the converted image,
    the forward pass gives one row of logits, and the prediction is the
    class name and the probability at the arg-max of the softmax. *)
Lemma predict_started (f : param_file) (g : Globals) (data : list byte) (im : PIL.Image) :
  Main.startup f = Ok g ->
  Image_open data = Some im ->
  exists t logits idx c p,
    T.call Main.transform (PIL.convert_RGB im) = Ok t /\
    fst (Nn.forward (g_model g) [t]) = [logits] /\
    List.length logits = Main.NUM_CLASSES /\
    Torch.argmax (Torch.softmax logits) = Ok idx /\
    nth_error Main.CLASS_NAMES idx = Some c /\
    nth_error (Torch.softmax logits) idx = Some p /\
    fst (Main.predict data g) = Ok {| class := c; confidence := p |}.
Proof.
  intros Hs Hopen.
  destruct (startup_eval f g Hs) as (Hev & Hn & Hnames & Htr).
  destruct (transform_converted im) as [t Ht].
  assert (Ht' : T.call (g_transform g) (PIL.convert_RGB im) = Ok t) by now rewrite Htr.
  assert (Hlen : List.length (logits_of (g_model g) t) = Main.NUM_CLASSES).
  { unfold logits_of. now rewrite length_map, length_seq. }
  destruct (select_ok Main.CLASS_NAMES (logits_of (g_model g) t)) as (idx & c & p & Hidx & Hc & Hp & Hsel).
  { intros H. rewrite H in Hlen. discriminate. }
  { now rewrite Hlen. }
  exists t, (logits_of (g_model g) t), idx, c, p.
  repeat split; try assumption.
  rewrite (predict_decoded g data im t Hopen Ht'). cbn [fst].
  now rewrite Hnames.
Qed.

(** A row of numbers is the image of a row of reals. *)
Lemma numbers_row (l : list Torch.f32) :
  Forall is_number l -> exists rs, l = map Torch.Num rs.
Proof.
  induction 1 as [|v l Hv _ [rs ->]]; [now exists []|].
  destruct v as [x| | |]; try contradiction. now exists (x :: rs).
Qed.




Lemma handle_all_started (f : param_file) (g : Globals) (uploads : list (list byte)) :
  Main.startup f = Ok g ->
  snd (Main.handle_all (Main.Serving g) uploads) = Main.Serving g.
Proof.
  intros Hs. pose proof (handle_all_frame f uploads) as H.
  unfold Main.boot in H. now rewrite Hs in H.
Qed.

(** The handler keeps the invariant from any globals, in whatever mode
    the module is. *)
Lemma predict_keeps_invariant (g : Globals) (data : list byte) :
  class_invariant g -> class_invariant (snd (Main.predict data g)).
Proof.
  unfold class_invariant. intros Hinv.
  destruct (Image_open data) as [im|] eqn:Hopen.
  - destruct (T.call (g_transform g) (PIL.convert_RGB im)) as [t|e] eqn:Ht.
    + rewrite (predict_decoded g data im t Hopen Ht).
      cbn [snd with_model g_CLASS_NAMES g_model].
      now rewrite forward_num_classes.
    + unfold Main.predict, bindM, Main.open_rgb. rewrite Hopen.
      unfold ret, gets, lift. now rewrite Ht.
  - now rewrite predict_undecodable.
Qed.

(** C9.  Once the service has started, every call of [predict], whether it
    returns a prediction or raises, leaves the globals (the model, the
    class names, the transform) exactly as they were. *)
Theorem predict_leaves_globals (f : param_file) (g : Globals) (data : list byte) :
  Main.startup f = Ok g ->
  snd (Main.predict data g) = g /\
  g_model (snd (Main.predict data g)) = g_model g /\
  g_CLASS_NAMES (snd (Main.predict data g)) = Main.CLASS_NAMES /\
  g_transform (snd (Main.predict data g)) = Main.transform.
Proof.
  intros Hs. destruct (startup_eval f g Hs) as (Hev & _ & Hnames & Htr).
  rewrite (predict_frame g data Hev). repeat split; assumption.
Qed.

(** C5.  Once the service has started, two calls of [predict] on the same
    bytes return the same result (the same label and confidence, or the
    same exception), whatever uploads were handled before the first call
    and between the two. *)
Theorem predict_deterministic
    (f : param_file) (g g1 g2 : Globals) (before between : list (list byte)) (data : list byte) :
  Main.startup f = Ok g ->
  snd (Main.handle_all (Main.Serving g) before) = Main.Serving g1 ->
  snd (Main.handle_all (Main.Serving (snd (Main.predict data g1))) between) = Main.Serving g2 ->
  fst (Main.predict data g1) = fst (Main.predict data g2).
Proof.
  intros Hs H1 H2.
  rewrite (handle_all_started f g before Hs) in H1. injection H1 as <-.
  destruct (startup_eval f g Hs) as (Hev & _).
  rewrite (predict_frame g data Hev) in H2.
  rewrite (handle_all_started f g between Hs) in H2. now injection H2 as <-.
Qed.

(** C8.  [CLASS_NAMES] has [NUM_CLASSES] entries; the globals have as
    many class names as the model has output units when the service
    starts and after any uploads; and every index that arg-max selects
    from a row of the forward pass is a position of the class names, so
    the lookup returns a name. *)
Theorem class_lookup_in_bounds
    (f : param_file) (g g' : Globals) (uploads : list (list byte))
    (x : list T.tensor) (logits : list Torch.f32) (idx : nat) :
  Main.startup f = Ok g ->
  snd (Main.handle_all (Main.Serving g) uploads) = Main.Serving g' ->
  In logits (fst (Nn.forward (g_model g') x)) ->
  Torch.argmax (Torch.softmax logits) = Ok idx ->
  List.length Main.CLASS_NAMES = Main.NUM_CLASSES /\
  class_invariant g /\
  class_invariant g' /\
  (forall g0 data, class_invariant g0 -> class_invariant (snd (Main.predict data g0))) /\
  (idx < List.length (g_CLASS_NAMES g'))%nat /\
  exists c, Torch.getitem (g_CLASS_NAMES g') idx = Ok c.
Proof.
  intros Hs Hrun Hin Hidx.
  rewrite (handle_all_started f g uploads Hs) in Hrun. injection Hrun as <-.
  destruct (startup_eval f g Hs) as (_ & Hn & Hnames & _).
  assert (Hinv : class_invariant g).
  { unfold class_invariant. now rewrite Hnames, Hn. }
  apply forward_rows in Hin.
  destruct (argmax_softmax_spec _ _ Hidx) as (v & Hv & _).
  assert (Hlt : (idx < List.length (g_CLASS_NAMES g))%nat).
  { rewrite Hinv, <- Hin, <- softmax_length. apply nth_error_Some. congruence. }
  repeat split; try assumption; try exact predict_keeps_invariant.
  unfold Torch.getitem.
  destruct (nth_error (g_CLASS_NAMES g) idx) as [c|] eqn:Hc.
  - now exists c.
  - apply nth_error_None in Hc. lia.
Qed.

Lemma map_filter_nonempty {A B : Type} (h : A -> B) (keep : A -> bool) (l : list A) (a : A) :
  In a l -> keep a = true -> map h (filter keep l) <> [].
Proof.
  intros Hin Hk H. apply map_eq_nil in H.
  assert (Hm : In a (filter keep l)) by (apply filter_In; now split).
  rewrite H in Hm. exact Hm.
Qed.

Lemma classifier_weight_expected (n : nat) :
  In ("classifier.weight"%string, [n; Nn.num_features]) (Nn.expected_shapes n).
Proof. unfold Nn.expected_shapes. apply in_or_app. right. left. reflexivity. Qed.

(** A process that did not start answers no upload. *)
Lemma exited_serves_nothing (e : exn) (uploads : list (list byte)) :
  Main.handle_all (Main.Exited e) uploads =
  (repeat None (List.length uploads), Main.Exited e).
Proof.
  induction uploads as [|data rest IH]; cbn [Main.handle_all Main.handle List.length repeat].
  - reflexivity.
  - now rewrite IH.
Qed.


(** C2, as the code has it.  For every upload that Pillow does not decode,
    [predict] raises the decoder's exception at its first line, returns no
    prediction and leaves the globals alone; the handler catches nothing
    and the application registers no exception handler, so the caller gets
    the status 500, a server error and not a client error, and the process
    goes on serving. *)
Theorem undecodable_upload_is_server_error (g : Globals) (data : list byte) :
  Image_open data = None ->
  Main.predict data g = (Raise UnidentifiedImageError, g) /\
  Main.handle (Main.Serving g) data =
    (Some {| Main.status := 500; Main.body := Main.InternalServerError |}, Main.Serving g) /\
  Main.is_server_error 500 = true /\
  Main.is_client_error 500 = false.
Proof.
  intros Hopen. pose proof (predict_undecodable g data Hopen) as Hp.
  split; [exact Hp|]. split; [|split; reflexivity].
  cbn [Main.handle]. now rewrite Hp.
Qed.
End Claims.

(** C6.  For every RGB image of a single pixel with 8-bit samples, the
    composed transform returns a tensor of 3 x 224 x 224 entries in which
    every entry of channel [c] is [(pixel_c / 255 - mean_c) / std_c], with
    the means and standard deviations of the transform. *)
Theorem transform_single_pixel (r g b : Z) (c i j : nat) :
  (0 <= r <= 255)%Z -> (0 <= g <= 255)%Z -> (0 <= b <= 255)%Z ->
  (c < 3)%nat -> (i < 224)%nat -> (j < 224)%nat ->
  exists t,
    T.call Main.transform (solid_pixel r g b) = Ok t /\
    tensor_at t c i j =
    Some ((inject_Z (nth c [r; g; b] 0%Z) / 255
           - nth c (T.normalize_mean Main.transform) 0)
          / nth c (T.normalize_std Main.transform) 0)%Q.
Proof.
  intros Hr Hg Hb Hc Hi Hj. eexists. split.
  - apply transform_solid_pixel; assumption.
  - unfold tensor_at.
    destruct c as [|[|[|c]]]; [| | |lia]; cbn [nth_error nth Main.transform T.normalize_mean T.normalize_std];
      rewrite (nth_error_repeat_inside _ _ _ Hi), (nth_error_repeat_inside _ _ _ Hj); reflexivity.
Qed.


(** * The claims on the test doubles *)

Section Runs.
#[local] Existing Instance Fixture.runtime.
Local Open Scope R_scope.

Lemma fixture_startup :
  Main.startup (Pickled Fixture.model_pth) = Ok Fixture.globals.
Proof. reflexivity. Qed.

Lemma fixture_red_pixel :
  Image_open Fixture.red_pixel_ppm = Some (solid_pixel 255 0 0).
Proof. reflexivity. Qed.

Lemma fixture_forward (x : list T.tensor) :
  fst (Nn.forward (g_model Fixture.globals) x) =
  map (fun _ => map Torch.Num [0.1; 5.0; 0.2; 0.3]) x.
Proof. reflexivity. Qed.

Lemma fixture_argmax :
  Torch.argmax (Torch.softmax (map Torch.Num [0.1; 5.0; 0.2; 0.3])) = Ok 1%nat.
Proof. rewrite softmax_map_Num, argmax_map_Num, argmax_softmax. exact argmax_example. Qed.

Lemma fixture_logits (t : T.tensor) (logits : list Torch.f32) :
  fst (Nn.forward (g_model Fixture.globals) [t]) = [logits] ->
  logits = map Torch.Num [0.1; 5.0; 0.2; 0.3] /\ Forall is_number logits.
Proof.
  rewrite fixture_forward. cbn [map]. intros [= <-]. split; [reflexivity|].
  repeat constructor.
Qed.

(** The evaluation mode set at start-up is what keeps the handler from
    touching the model: on the same globals with the module left in training
    mode, a call of [predict] changes the parameters. *)
Lemma training_mode_changes_model :
  let g := with_model Fixture.globals
             {| Nn.num_classes := 4; Nn.training := true; Nn.params := Fixture.model_pth |} in
  snd (Main.predict Fixture.red_pixel_ppm g) <> g.
Proof.
  cbn zeta. intros H.
  destruct (transform_converted (solid_pixel 255 0 0)) as [t Ht].
  set (g := with_model Fixture.globals _) in H.
  rewrite (predict_decoded g Fixture.red_pixel_ppm (solid_pixel 255 0 0) t fixture_red_pixel Ht) in H.
  subst g.
  apply (f_equal (fun g => Fixture.bias_of (Nn.params (g_model g)))) in H.
  cbn in H. injection H as H _. lra.
Qed.








Lemma predict_leaves_globals_witness :
  Main.startup (Pickled Fixture.model_pth) = Ok Fixture.globals /\
  snd (Main.predict Fixture.red_pixel_ppm Fixture.globals) =
  Fixture.globals.
Proof.
  split; [reflexivity|].
  apply (predict_leaves_globals
           (Pickled Fixture.model_pth) Fixture.globals Fixture.red_pixel_ppm).
  reflexivity.
Defined.

Lemma predict_deterministic_witness :
  Main.startup (Pickled Fixture.model_pth) = Ok Fixture.globals /\
  fst (Main.predict Fixture.red_pixel_ppm Fixture.globals) =
  fst (Main.predict Fixture.red_pixel_ppm Fixture.globals) /\
  snd (Main.handle_all (Main.Serving Fixture.globals)
         [Fixture.hello_txt; Fixture.red_pixel_ppm]) = Main.Serving Fixture.globals.
Proof.
  split; [reflexivity|].
  assert (H1 : snd (Main.handle_all (Main.Serving Fixture.globals)
                      [Fixture.hello_txt; Fixture.red_pixel_ppm]) =
               Main.Serving Fixture.globals)
    by exact (handle_all_started _ _ _ fixture_startup).
  split; [|exact H1].
  apply (predict_deterministic
           (Pickled Fixture.model_pth) Fixture.globals Fixture.globals Fixture.globals
           [Fixture.hello_txt; Fixture.red_pixel_ppm] [Fixture.hello_txt]
           Fixture.red_pixel_ppm).
  - reflexivity.
  - exact H1.
  - rewrite (predict_frame Fixture.globals Fixture.red_pixel_ppm eq_refl).
    reflexivity.
Defined.

Lemma class_lookup_in_bounds_witness :
  Main.startup (Pickled Fixture.model_pth) = Ok Fixture.globals /\
  Torch.argmax (Torch.softmax (map Torch.Num [0.1; 5.0; 0.2; 0.3])) = Ok 1%nat /\
  (1 < List.length (g_CLASS_NAMES Fixture.globals))%nat /\
  exists c, Torch.getitem (g_CLASS_NAMES Fixture.globals) 1 = Ok c.
Proof.
  split; [reflexivity|]. split; [exact fixture_argmax|].
  apply (class_lookup_in_bounds
           (Pickled Fixture.model_pth) Fixture.globals Fixture.globals
           [Fixture.hello_txt] [[]] (map Torch.Num [0.1; 5.0; 0.2; 0.3]) 1%nat).
  - reflexivity.
  - reflexivity.
  - left; reflexivity.
  - exact fixture_argmax.
Defined.


Lemma undecodable_upload_is_server_error_witness :
  Image_open Fixture.hello_txt = None /\
  Main.handle (Main.Serving Fixture.globals) Fixture.hello_txt =
    (Some {| Main.status := 500; Main.body := Main.InternalServerError |},
     Main.Serving Fixture.globals).
Proof.
  split; [reflexivity|].
  apply (undecodable_upload_is_server_error
           Fixture.globals Fixture.hello_txt).
  reflexivity.
Defined.

(** C2 as stated fails on the empty buffer: the decoder refuses it, and
    the response has the status 500, which is no client error status. *)
Lemma undecodable_upload_is_no_client_error :
  Image_open [] = None /\
  exists r,
    fst (Main.handle (Main.Serving Fixture.globals) []) = Some r /\
    Main.status r = 500%Z /\
    Main.is_client_error (Main.status r) = false.
Proof.
  split; [reflexivity|]. eexists. split; [reflexivity|]. split; reflexivity.
Qed.

Lemma transform_single_pixel_witness :
  exists t,
    T.call Main.transform (solid_pixel 10 200 33) = Ok t /\
    tensor_at t 1 100 223 = Some ((inject_Z 200 / 255 - (456 # 1000)) / (224 # 1000))%Q.
Proof.
  apply (transform_single_pixel 10 200 33 1 100 223); lia.
Defined.
End Runs.


(** * Further properties of the handler *)

Section SelectionFacts.
Local Open Scope R_scope.
Import Torch.

Lemma sum_le_length_bound (l : list R) (v : R) :
  (forall x, In x l -> x <= v) -> sum l <= INR (List.length l) * v.
Proof.
  induction l as [|a l IH]; intros H.
  - cbn. lra.
  - change (sum (a :: l)) with (a + sum l).
    change (List.length (a :: l)) with (S (List.length l)). rewrite S_INR.
    assert (a <= v) by (apply H; now left).
    assert (sum l <= INR (List.length l) * v) by (apply IH; intros x Hx; apply H; now right).
    lra.
Qed.

Lemma sum_map_exp_shift (c : R) (l : list R) :
  sum (map exp (map (fun x => x + c) l)) = exp c * sum (map exp l).
Proof.
  induction l as [|a l IH]; cbn [map sum fold_right].
  - ring.
  - fold (sum (map exp (map (fun x => x + c) l))). fold (sum (map exp l)).
    rewrite IH, exp_plus. ring.
Qed.

(** Softmax does not see a constant added to every logit. *)
Lemma softmax_shift (c : R) (l : list R) :
  softmax_real (map (fun x => x + c) l) = softmax_real l.
Proof.
  destruct l as [|a l]; [reflexivity|].
  unfold softmax_real. rewrite sum_map_exp_shift, map_map.
  assert (Hz : 0 < sum (map exp (a :: l))) by (apply sum_exp_pos; congruence).
  pose proof (exp_pos c) as Hc.
  apply map_ext. intros x. rewrite exp_plus. field. split; lra.
Qed.

Lemma numbers_add (c : R) (l : list f32) :
  numbers (map (add c) l) = map (fun x => x + c) (numbers l).
Proof.
  induction l as [|v l IH]; [reflexivity|].
  destruct v; cbn [map add numbers]; now rewrite IH.
Qed.

Lemma poisoned_add (c : R) (l : list f32) : poisoned (map (add c) l) = poisoned l.
Proof.
  unfold poisoned. f_equal.
  - induction l as [|v l IH]; [reflexivity|].
    cbn [map existsb]. rewrite IH. now destruct v.
  - induction l as [|v l IH]; [reflexivity|].
    cbn [map forallb]. rewrite IH. now destruct v.
Qed.

Lemma not_poisoned_numbers (l : list f32) : poisoned l = false -> numbers l <> [].
Proof.
  unfold poisoned. intros H. apply orb_false_elim in H. destruct H as [_ H].
  induction l as [|v l IH]; [discriminate|].
  destruct v; cbn [numbers forallb andb] in *; try congruence; now apply IH.
Qed.

(** Softmax does not see a constant added to every logit, whatever the
    logits are. *)
Lemma softmax_add (c : R) (l : list f32) : softmax (map (add c) l) = softmax l.
Proof.
  unfold softmax. rewrite poisoned_add. destruct (poisoned l) eqn:Hp.
  - now rewrite map_map.
  - rewrite numbers_add, sum_map_exp_shift, map_map.
    pose proof (sum_exp_pos _ (not_poisoned_numbers l Hp)) as Hz.
    pose proof (exp_pos c) as Hc.
    apply map_ext. intros [x| | |]; cbn [add]; try reflexivity.
    f_equal. rewrite exp_plus. field. split; lra.
Qed.

Lemma select_raises (names : list string) (logits : list f32) (e : exn) :
  select names logits = Raise e -> e = IndexError.
Proof.
  unfold select, argmax, getitem. cbn zeta.
  destruct (softmax logits) as [|x t]; cbn [bind]; [now intros [= <-]|].
  destruct (nth_error names _); cbn [bind]; [|now intros [= <-]].
  destruct (nth_error (x :: t) _); cbn [bind]; [discriminate | now intros [= <-]].
Qed.
End SelectionFacts.

Section MoreHandlerFacts.
Context {RT : Runtime}.
Local Open Scope R_scope.

Lemma call_raises (c : T.Compose) (im : PIL.Image) (e : exn) :
  T.call c im = Raise e -> e = ValueError \/ e = RuntimeError.
Proof.
  unfold T.call, T.Normalize.
  destruct (existsb _ _); [intros [= <-]; now left|].
  destruct (T.broadcast _ _); [|intros [= <-]; now right].
  destruct (T.broadcast _ _); [discriminate | intros [= <-]; now right].
Qed.

(** The handler on an upload that decodes to an image that the transform
    refuses: it raises what the transform raised and touches nothing. *)
Lemma predict_transform_raises (g : Globals) (data : list byte) (im : PIL.Image) (e : exn) :
  Image_open data = Some im ->
  T.call (g_transform g) (PIL.convert_RGB im) = Raise e ->
  Main.predict data g = (Raise e, g).
Proof.
  intros Hopen Ht. unfold Main.predict, bindM, Main.open_rgb. rewrite Hopen.
  unfold ret, gets, lift. now rewrite Ht.
Qed.

(** The exceptions of the handler in the model; the decoding error
    stands for whatever Pillow raises. *)
Lemma predict_raises (g : Globals) (data : list byte) (e : exn) :
  fst (Main.predict data g) = Raise e ->
  In e [UnidentifiedImageError; ValueError; RuntimeError; IndexError].
Proof.
  destruct (Image_open data) as [im|] eqn:Hopen.
  - destruct (T.call (g_transform g) (PIL.convert_RGB im)) as [t|e'] eqn:Ht.
    + rewrite (predict_decoded g data im t Hopen Ht). cbn [fst]. intros H.
      apply select_raises in H. subst. cbn. tauto.
    + rewrite (predict_transform_raises g data im e' Hopen Ht). cbn [fst].
      intros [= ->]. destruct (call_raises _ _ _ Ht) as [->| ->]; cbn; tauto.
  - rewrite (predict_undecodable g data Hopen). cbn [fst]. intros [= <-]. cbn. tauto.
Qed.

(** X1.  From any globals, whatever the class names, the transform and
    the mode of the module, [predict] never raises an [HTTPException]: the
    status of its response is 200 or 500 and never a client error
    status. *)
Theorem predict_exceptions_and_statuses (g : Globals) (data : list byte) :
  (forall code, fst (Main.predict data g) <> Raise (HTTPException code)) /\
  (Main.status (Main.respond (fst (Main.predict data g))) = 200%Z \/
   Main.status (Main.respond (fst (Main.predict data g))) = 500%Z).
Proof.
  split.
  - intros code H. apply predict_raises in H. cbn in H.
    destruct H as [H|[H|[H|[H|[]]]]]; discriminate.
  - destruct (fst (Main.predict data g)) as [p|e] eqn:Hr.
    + cbn [Main.respond]. destruct (confidence p); cbn; tauto.
    + right. apply predict_raises in Hr. cbn in Hr.
      destruct Hr as [<-|[<-|[<-|[<-|[]]]]]; reflexivity.
Qed.

(** X3.  Once the service has started, the confidence returned for an
    upload that decodes and whose logits are numbers (no NaN, no infinity)
    is at least 1/4, one over the number of classes: it is the greatest of
    four probabilities that sum to 1. *)
Theorem confidence_at_least_one_over_classes
    (f : param_file) (g : Globals) (data : list byte) (im : PIL.Image) :
  Main.startup f = Ok g ->
  Image_open data = Some im ->
  exists t logits p,
    T.call Main.transform (PIL.convert_RGB im) = Ok t /\
    fst (Nn.forward (g_model g) [t]) = [logits] /\
    fst (Main.predict data g) = Ok p /\
    (Forall is_number logits ->
     le32 (Torch.Num (/ INR Main.NUM_CLASSES)) (confidence p)).
Proof.
  intros Hs Hopen.
  destruct (predict_started f g data im Hs Hopen)
    as (t & logits & idx & c & p & Ht & Hfw & Hlen & Hidx & _ & Hp & Hpred).
  exists t, logits, {| class := c; confidence := p |}.
  split; [exact Ht|]. split; [exact Hfw|]. split; [exact Hpred|]. cbn [confidence].
  intros Hnum. destruct (numbers_row _ Hnum) as [rs ->].
  rewrite length_map in Hlen.
  rewrite softmax_map_Num in Hidx, Hp. rewrite argmax_map_Num in Hidx.
  destruct (argmax_spec _ _ Hidx) as (v & Hv & Hmax & _).
  rewrite nth_error_map, Hv in Hp. injection Hp as <-. cbn [le32].
  pose proof (sum_le_length_bound _ _ Hmax) as Hsum.
  rewrite softmax_real_length, Hlen in Hsum.
  rewrite softmax_sum in Hsum by (intros ->; discriminate).
  assert (Hn : 0 < INR Main.NUM_CLASSES) by (apply lt_0_INR; unfold Main.NUM_CLASSES; lia).
  apply Rmult_le_reg_l with (r := INR Main.NUM_CLASSES); [exact Hn|].
  rewrite Rinv_r by lra. exact Hsum.
Qed.

(** X4.  Two models whose logits differ by one constant on every
    pre-processed image (as when a constant is added to every entry of the
    classifier's bias) give the same result on every upload: the same label
    and the same confidence, or the same exception. *)
Theorem predict_ignores_logit_shift (g1 g2 : Globals) (c : R) (data : list byte) :
  g_CLASS_NAMES g2 = g_CLASS_NAMES g1 ->
  g_transform g2 = g_transform g1 ->
  (forall t, fst (Nn.forward (g_model g2) [t]) =
             map (map (Torch.add c)) (fst (Nn.forward (g_model g1) [t]))) ->
  fst (Main.predict data g2) = fst (Main.predict data g1).
Proof.
  intros Hnames Htr Hfw.
  destruct (Image_open data) as [im|] eqn:Hopen.
  - destruct (T.call (g_transform g1) (PIL.convert_RGB im)) as [t|e] eqn:Ht.
    + assert (Ht2 : T.call (g_transform g2) (PIL.convert_RGB im) = Ok t) by now rewrite Htr.
      rewrite (predict_decoded g1 data im t Hopen Ht), (predict_decoded g2 data im t Hopen Ht2).
      cbn [fst]. specialize (Hfw t). rewrite !forward_single in Hfw. cbn [map] in Hfw.
      injection Hfw as Hfw. rewrite Hfw, Hnames.
      unfold select. cbn zeta. now rewrite softmax_add.
    + assert (Ht2 : T.call (g_transform g2) (PIL.convert_RGB im) = Raise e) by now rewrite Htr.
      now rewrite (predict_transform_raises g1 data im e Hopen Ht),
                  (predict_transform_raises g2 data im e Hopen Ht2).
  - now rewrite !predict_undecodable.
Qed.

(** X5.  Once the service has started, every upload of a run is answered,
    and with what the handler makes of that upload alone on the globals of
    the start-up: the responses do not depend on the order of the uploads
    or on the other uploads of the run, and the process goes on serving. *)
Theorem responses_are_independent (f : param_file) (g : Globals) (uploads : list (list byte)) :
  Main.startup f = Ok g ->
  Main.handle_all (Main.Serving g) uploads =
  (map (fun data => Some (Main.respond (fst (Main.predict data g)))) uploads,
   Main.Serving g).
Proof.
  intros Hs. destruct (startup_eval f g Hs) as (Hev & _).
  induction uploads as [|data rest IH]; cbn [Main.handle_all map]; [reflexivity|].
  cbn [Main.handle]. pose proof (predict_frame g data Hev) as Hfr.
  destruct (Main.predict data g) as [r g'] eqn:Hp. cbn [snd fst] in *. subst g'.
  now rewrite IH.
Qed.
End MoreHandlerFacts.

(** * Further properties of the transform *)

Section MoreTransformFacts.

Lemma precompute_coeffs_length (inSize outSize : nat) :
  List.length (PIL.normalize_coeffs_8bpc (PIL.precompute_coeffs inSize outSize)) = outSize.
Proof.
  unfold PIL.normalize_coeffs_8bpc, PIL.precompute_coeffs.
  now rewrite !length_map, length_seq.
Qed.

Lemma clip8_range (v : Z) : (0 <= PIL.clip8 v <= 255)%Z.
Proof. unfold PIL.clip8. lia. Qed.

Lemma weighted_range (ks : list Z) (get : nat -> Z) : (0 <= PIL.weighted ks get <= 255)%Z.
Proof. unfold PIL.weighted. apply clip8_range. Qed.

Lemma resample_horizontal_shape (kk : list (nat * list Z)) (w h : nat) (p : PIL.plane) :
  List.length p = h -> plane_shape (List.length kk) h (PIL.resample_horizontal kk p).
Proof.
  intros Hh. unfold plane_shape, PIL.resample_horizontal. split.
  - now rewrite length_map.
  - apply Forall_forall. intros row Hrow. apply in_map_iff in Hrow.
    destruct Hrow as [r [<- _]]. now rewrite length_map.
Qed.

Lemma resample_vertical_shape (kk : list (nat * list Z)) (width : nat) (p : PIL.plane) :
  plane_shape width (List.length kk) (PIL.resample_vertical kk width p).
Proof.
  unfold plane_shape, PIL.resample_vertical. split.
  - now rewrite length_map.
  - apply Forall_forall. intros row Hrow. apply in_map_iff in Hrow.
    destruct Hrow as [[ymin ks] [<- _]]. now rewrite length_map, length_seq.
Qed.

Lemma resample_horizontal_range (kk : list (nat * list Z)) (p : PIL.plane) :
  Forall (Forall (fun s => (0 <= s <= 255)%Z)) (PIL.resample_horizontal kk p).
Proof.
  unfold PIL.resample_horizontal. apply Forall_forall. intros row Hrow.
  apply in_map_iff in Hrow. destruct Hrow as [r [<- _]].
  apply Forall_forall. intros s Hs. apply in_map_iff in Hs.
  destruct Hs as [[xmin ks] [<- _]]. apply weighted_range.
Qed.

Lemma resample_vertical_range (kk : list (nat * list Z)) (width : nat) (p : PIL.plane) :
  Forall (Forall (fun s => (0 <= s <= 255)%Z)) (PIL.resample_vertical kk width p).
Proof.
  unfold PIL.resample_vertical. apply Forall_forall. intros row Hrow.
  apply in_map_iff in Hrow. destruct Hrow as [[ymin ks] [<- _]].
  apply Forall_forall. intros s Hs. apply in_map_iff in Hs.
  destruct Hs as [x [<- _]]. apply weighted_range.
Qed.

(** Resizing keeps the number of bands, gives every band the requested
    size when the bands had the size of the image, and gives bytes when it
    was given bytes. *)
Lemma resize_bands_length (size : nat * nat) (im : PIL.Image) :
  List.length (PIL.im_bands (PIL.resize size im)) = List.length (PIL.im_bands im).
Proof.
  unfold PIL.resize. destruct size as [xs ys]. destruct (PIL.im_size im) as [w h].
  cbn [PIL.im_bands]. apply length_map.
Qed.

Lemma resize_well_shaped (xs ys : nat) (im : PIL.Image) :
  well_shaped im -> Forall (plane_shape xs ys) (PIL.im_bands (PIL.resize (xs, ys) im)).
Proof.
  unfold well_shaped, PIL.resize. destruct (PIL.im_size im) as [w h]. cbn [fst snd PIL.im_bands].
  intros Hws. apply Forall_forall. intros q Hq. apply in_map_iff in Hq.
  destruct Hq as [p [<- Hp]]. rewrite Forall_forall in Hws. destruct (Hws p Hp) as [Hh Hw].
  assert (Hhor : plane_shape xs h
                   (if Nat.eqb xs w then p
                    else PIL.resample_horizontal
                           (PIL.normalize_coeffs_8bpc (PIL.precompute_coeffs w xs)) p)).
  { destruct (Nat.eqb_spec xs w) as [->|_].
    - now split.
    - rewrite <- (precompute_coeffs_length w xs) at 1.
      now apply (resample_horizontal_shape _ w). }
  destruct (Nat.eqb_spec ys h) as [->|_].
  - exact Hhor.
  - rewrite <- (precompute_coeffs_length h ys) at 1. apply resample_vertical_shape.
Qed.

Lemma resize_eight_bit (size : nat * nat) (im : PIL.Image) :
  eight_bit im -> eight_bit (PIL.resize size im).
Proof.
  unfold eight_bit, PIL.resize. destruct size as [xs ys]. destruct (PIL.im_size im) as [w h].
  cbn [PIL.im_bands]. intros H8. apply Forall_forall. intros q Hq. apply in_map_iff in Hq.
  destruct Hq as [p [<- Hp]]. rewrite Forall_forall in H8. specialize (H8 p Hp).
  destruct (Nat.eqb ys h).
  - destruct (Nat.eqb xs w); [exact H8 | apply resample_horizontal_range].
  - apply resample_vertical_range.
Qed.

Lemma resize_same_size (im : PIL.Image) :
  PIL.im_bands (PIL.resize (PIL.im_size im) im) = PIL.im_bands im.
Proof.
  unfold PIL.resize. destruct (PIL.im_size im) as [w h]. cbn [PIL.im_bands].
  rewrite !Nat.eqb_refl. apply map_id.
Qed.

Lemma entry_map_plane {A B : Type} (f : A -> B) (p : list (list A)) (i j : nat) :
  match nth_error (PIL.map_plane f p) i with
  | Some row => nth_error row j
  | None => None
  end =
  option_map f match nth_error p i with
               | Some row => nth_error row j
               | None => None
               end.
Proof.
  unfold PIL.map_plane. rewrite nth_error_map.
  destruct (nth_error p i) as [row|]; cbn [option_map]; [|reflexivity].
  apply nth_error_map.
Qed.

Lemma map_plane_compose {A B C : Type} (f : A -> B) (h : B -> C) (k : A -> C) (p : list (list A)) :
  (forall a, h (f a) = k a) -> PIL.map_plane h (PIL.map_plane f p) = PIL.map_plane k p.
Proof.
  intros H. unfold PIL.map_plane. rewrite map_map. apply map_ext. intros row.
  rewrite map_map. now apply map_ext.
Qed.

(** The transform on an image of three bands: it resizes, and then
    works band by band and sample by sample. *)
Lemma transform_three_bands (im : PIL.Image) :
  List.length (PIL.im_bands im) = 3%nat ->
  exists r0 r1 r2,
    PIL.im_bands (T.Resize (224, 224)%nat im) = [r0; r1; r2] /\
    T.call Main.transform im =
    Ok [PIL.map_plane (normalized 0) r0;
        PIL.map_plane (normalized 1) r1;
        PIL.map_plane (normalized 2) r2].
Proof.
  intros Hlen.
  assert (Hr : List.length (PIL.im_bands (T.Resize (224, 224)%nat im)) = 3%nat).
  { unfold T.Resize. now rewrite resize_bands_length. }
  destruct (PIL.im_bands (T.Resize (224, 224)%nat im)) as [|r0 [|r1 [|r2 [|r3 rs]]]] eqn:Hb;
    try discriminate.
  exists r0, r1, r2. split; [reflexivity|].
  unfold T.call, T.ToTensor.
  cbn [Main.transform T.resize_size T.normalize_mean T.normalize_std].
  rewrite Hb. unfold T.Normalize.
  replace (existsb _ _) with false by reflexivity.
  cbn [map List.length Nat.eqb T.broadcast combine].
  rewrite (map_plane_compose _ _ (normalized 0) r0) by reflexivity.
  rewrite (map_plane_compose _ _ (normalized 1) r1) by reflexivity.
  now rewrite (map_plane_compose _ _ (normalized 2) r2) by reflexivity.
Qed.

Lemma normalized_monotone (c : nat) (a b : Z) :
  (c < 3)%nat -> (a <= b)%Z -> (normalized c a <= normalized c b)%Q.
Proof.
  intros Hc Hab. unfold normalized, Qdiv.
  apply Qmult_le_compat_r.
  - apply Qplus_le_l. apply Qmult_le_compat_r; [now rewrite <- Zle_Qle | discriminate].
  - destruct c as [|[|[|c]]]; [| | |lia];
      cbn [nth Main.transform T.normalize_mean T.normalize_std]; discriminate.
Qed.

(** X6.  On every image of three bands whose bands have the size of the
    image, of whatever size, the transform returns a tensor of 3 planes
    of 224 rows of 224 entries. *)
Theorem transform_output_shape (im : PIL.Image) :
  List.length (PIL.im_bands im) = 3%nat ->
  well_shaped im ->
  exists t,
    T.call Main.transform im = Ok t /\
    List.length t = 3%nat /\
    Forall (plane_shape 224 224) t.
Proof.
  intros Hlen Hws.
  destruct (transform_three_bands im Hlen) as (r0 & r1 & r2 & Hb & Ht).
  eexists. split; [exact Ht|]. split; [reflexivity|].
  pose proof (resize_well_shaped 224 224 im Hws) as Hsh.
  unfold T.Resize in Hb. cbn [fst snd] in Hb. rewrite Hb in Hsh.
  assert (Hmp : forall c r, plane_shape 224 224 r ->
                            plane_shape 224 224 (PIL.map_plane (normalized c) r)).
  { intros c r [Hh Hw]. unfold plane_shape, PIL.map_plane. split.
    - now rewrite length_map.
    - apply Forall_forall. intros row Hrow. apply in_map_iff in Hrow.
      destruct Hrow as [row' [<- Hin]]. rewrite length_map.
      rewrite Forall_forall in Hw. now apply Hw. }
  inversion Hsh as [|? ? H0 Hsh1]; subst. inversion Hsh1 as [|? ? H1 Hsh2]; subst.
  inversion Hsh2 as [|? ? H2 _]; subst.
  repeat constructor; now apply Hmp.
Qed.

(** Every entry of the tensor is the normalised sample of the resized
    image at the same channel, row and column. *)
Lemma transform_pointwise (im : PIL.Image) :
  List.length (PIL.im_bands im) = 3%nat ->
  exists t,
    T.call Main.transform im = Ok t /\
    forall c i j,
      tensor_at t c i j =
      option_map (normalized c) (sample_at (T.Resize (224, 224)%nat im) c i j).
Proof.
  intros Hlen.
  destruct (transform_three_bands im Hlen) as (r0 & r1 & r2 & Hb & Ht).
  eexists. split; [exact Ht|]. intros c i j.
  unfold tensor_at, sample_at. rewrite Hb.
  destruct c as [|[|[|c]]]; cbn [nth_error]; try apply entry_map_plane.
  now destruct c.
Qed.

Lemma sample_at_eight_bit (im : PIL.Image) (c i j : nat) (s : Z) :
  eight_bit im -> sample_at im c i j = Some s -> (0 <= s <= 255)%Z.
Proof.
  unfold eight_bit, sample_at. intros H8 Hs.
  destruct (nth_error (PIL.im_bands im) c) as [p|] eqn:Hp; [|discriminate].
  destruct (nth_error p i) as [row|] eqn:Hrow; [|discriminate].
  apply nth_error_In in Hp, Hrow, Hs.
  rewrite Forall_forall in H8. specialize (H8 p Hp).
  rewrite Forall_forall in H8. specialize (H8 row Hrow).
  rewrite Forall_forall in H8. now apply H8.
Qed.

(** X7.  On every image of three bands of bytes, every entry of channel
    [c] of the tensor lies between what [Normalize] makes of the samples 0
    and 255, that is between [(0 - mean_c) / std_c] and
    [(1 - mean_c) / std_c]. *)
Theorem transform_output_range (im : PIL.Image) :
  List.length (PIL.im_bands im) = 3%nat ->
  eight_bit im ->
  exists t,
    T.call Main.transform im = Ok t /\
    forall c i j v,
      tensor_at t c i j = Some v ->
      (normalized c 0 <= v <= normalized c 255)%Q.
Proof.
  intros Hlen H8.
  destruct (transform_pointwise im Hlen) as (t & Ht & Hpt).
  exists t. split; [exact Ht|]. intros c i j v Hv. rewrite Hpt in Hv.
  destruct (sample_at (T.Resize (224, 224)%nat im) c i j) as [s|] eqn:Hs; [|discriminate].
  cbn [option_map] in Hv. injection Hv as <-.
  assert (Hc : (c < 3)%nat).
  { unfold sample_at in Hs.
    destruct (nth_error (PIL.im_bands (T.Resize (224, 224)%nat im)) c) eqn:Hn; [|discriminate].
    assert (Hl : (c < List.length (PIL.im_bands (T.Resize (224, 224)%nat im)))%nat)
      by (apply nth_error_Some; congruence).
    unfold T.Resize in Hl. now rewrite resize_bands_length, Hlen in Hl. }
  pose proof (sample_at_eight_bit _ c i j s (resize_eight_bit _ im H8) Hs) as [Hlo Hhi].
  split; now apply normalized_monotone.
Qed.

(** X8.  On an image with bytes as samples (an image of one of the
    8-bit modes) whose number of bands is not 3 (a greyscale or an RGBA
    image that was not converted), the transform raises [RuntimeError]:
    [Normalize] has three means. *)
Theorem transform_needs_three_bands (im : PIL.Image) :
  eight_bit im ->
  List.length (PIL.im_bands im) <> 3%nat ->
  T.call Main.transform im = Raise RuntimeError.
Proof.
  intros _ Hlen. unfold T.call, T.Normalize.
  cbn [Main.transform T.resize_size T.normalize_mean T.normalize_std].
  replace (existsb _ _) with false by reflexivity.
  assert (Hl : List.length (T.ToTensor (T.Resize (224, 224)%nat im)) =
               List.length (PIL.im_bands im)).
  { unfold T.ToTensor, T.Resize. now rewrite length_map, resize_bands_length. }
  rewrite Hl. unfold T.broadcast. cbn [List.length].
  destruct (Nat.eqb_spec 3 (List.length (PIL.im_bands im))) as [Heq|_]; [congruence|].
  reflexivity.
Qed.

(** X9.  An image of three bands that already is 224 by 224 is not
    resampled: every entry of the tensor is the sample of the image at the
    same channel, row and column, divided by 255, minus the mean and over
    the standard deviation of the channel. *)
Theorem transform_at_target_size (im : PIL.Image) :
  List.length (PIL.im_bands im) = 3%nat ->
  PIL.im_size im = (224, 224)%nat ->
  exists t,
    T.call Main.transform im = Ok t /\
    forall c i j,
      tensor_at t c i j = option_map (normalized c) (sample_at im c i j).
Proof.
  intros Hlen Hsize.
  destruct (transform_pointwise im Hlen) as (t & Ht & Hpt).
  exists t. split; [exact Ht|]. intros c i j. rewrite Hpt.
  unfold sample_at, T.Resize. cbn [fst snd]. rewrite <- Hsize.
  now rewrite resize_same_size.
Qed.
End MoreTransformFacts.

(** * Further properties of the start-up *)

Section MoreStartupFacts.
Context {RT : Runtime}.

Lemma map_filter_nil {A B : Type} (h : A -> B) (keep : A -> bool) (l : list A) :
  map h (filter keep l) = [] <-> forall a, In a l -> keep a = false.
Proof.
  split.
  - intros H a Ha. destruct (keep a) eqn:Hk; [|reflexivity].
    exfalso. now apply (map_filter_nonempty h keep l a Ha Hk).
  - intros H. induction l as [|a l IH]; [reflexivity|]. cbn [filter].
    rewrite (H a) by now left. apply IH. intros b Hb. apply H. now right.
Qed.

Lemma lookup_shape_member (k : string) (l : list (string * list nat)) :
  Nn.lookup_shape k l <> None <-> In k (map fst l).
Proof.
  unfold Nn.lookup_shape. split.
  - destruct (find _ l) as [e|] eqn:Hf; [intros _|now intros H].
    apply find_some in Hf. destruct Hf as [Hin Heq].
    apply String.eqb_eq in Heq. subst k. now apply in_map.
  - intros Hin. apply in_map_iff in Hin. destruct Hin as [e [<- He]].
    destruct (find _ l) as [e'|] eqn:Hf; [discriminate|].
    pose proof (find_none _ _ Hf e He) as Hn. cbn in Hn.
    now rewrite String.eqb_refl in Hn.
Qed.

Lemma shape_eqb_eq (a b : list nat) : Nn.shape_eqb a b = true <-> a = b.
Proof.
  unfold Nn.shape_eqb. destruct (list_eq_dec Nat.eq_dec a b); split; congruence.
Qed.

(** A loadable state dict passes the three checks of
    [load_state_dict]. *)
Lemma loader_checks (m : Nn.Module) (state : StateDict) :
  loadable (Nn.num_classes m) state ->
  Nn.missing_keys m state = [] /\ Nn.unexpected_keys m state = [] /\
  Nn.size_mismatches m state = [].
Proof.
  unfold Nn.missing_keys, Nn.unexpected_keys, Nn.size_mismatches, loadable.
  rewrite !map_filter_nil. intros [Hexp Hkeys]. repeat split.
  - intros [k shp] Hin. cbn [fst]. destruct (Hexp k shp Hin) as (p & -> & _). reflexivity.
  - intros [k p] Hin. cbn [fst]. apply Hkeys, lookup_shape_member in Hin.
    now destruct (Nn.lookup_shape k (Nn.expected_shapes (Nn.num_classes m))).
  - intros [k shp] Hin. cbn [fst snd]. destruct (Hexp k shp Hin) as (p & -> & <-).
    unfold Nn.shape_fits. now rewrite (proj2 (shape_eqb_eq _ _) eq_refl).
Qed.

(** X10.  When [model.pth] holds a state dict, saved with its version
    metadata, that has every parameter of the four-class module with its
    shape and no other key, the start-up succeeds, and the globals hold
    exactly that state dict, and nothing of the random initialisation, in a
    module in evaluation mode.  A state dict with a key that is no
    parameter of the module makes the start-up raise. *)
Theorem startup_loads_state_dict (state : StateDict) :
  (loadable Main.NUM_CLASSES state ->
   Main.startup (Pickled state) =
   Ok {| g_DEVICE := Main.DEVICE;
         g_model := {| Nn.num_classes := Main.NUM_CLASSES;
                       Nn.training := false; Nn.params := state |};
         g_CLASS_NAMES := Main.CLASS_NAMES;
         g_transform := Main.transform |}) /\
  (forall k p,
     In (k, p) state -> ~ In k (map fst (Nn.expected_shapes Main.NUM_CLASSES)) ->
     Main.startup (Pickled state) = Raise RuntimeError).
Proof.
  rewrite startup_unfold. cbn [Nn.torch_load].
  unfold Nn.load_state_dict. cbn [fst snd]. split.
  - intros Hload. destruct (loader_checks fresh_module state Hload) as (-> & -> & ->).
    reflexivity.
  - intros k p Hin Hk.
    assert (Hu : Nn.unexpected_keys fresh_module state <> []).
    { unfold Nn.unexpected_keys. apply (map_filter_nonempty _ _ _ (k, p) Hin). cbn [fst].
      destruct (Nn.lookup_shape k _) eqn:Hl; [|reflexivity].
      exfalso. apply Hk. apply lookup_shape_member. unfold fresh_module in Hl.
      cbn [Nn.num_classes] in Hl. congruence. }
    destruct (Nn.missing_keys fresh_module state);
      destruct (Nn.unexpected_keys fresh_module state);
      destruct (Nn.size_mismatches fresh_module state); try reflexivity.
    now contradiction Hu.
Qed.
End MoreStartupFacts.

(** * Properties of the application around the handler *)

Section AppFacts.
Context {RT : Runtime}.

Lemma cors_attributes (o m : string) :
  Cors.is_allowed_origin App.cors o = Cors.mem o App.origins /\
  Cors.mem m (Cors.allow_methods App.cors) = Cors.mem m starlette_all_methods /\
  Cors.allow_all_origins App.cors = false /\
  Cors.allow_all_headers App.cors = true.
Proof. repeat split. Qed.

(** X11.  For a POST of an upload, with or without an [Origin] header and
    whatever the origin, the application runs the handler once and answers
    with the status and the body that the handler's result gives: the CORS
    middleware refuses no upload and changes neither status nor body. *)
Theorem app_answers_as_handler (req : App.Request) (g : Globals) :
  App.method req = "POST"%string ->
  App.status (fst (App.app req g)) =
    Main.status (Main.respond (fst (Main.predict (App.upload req) g))) /\
  App.content (fst (App.app req g)) =
    App.Payload (Main.body (Main.respond (fst (Main.predict (App.upload req) g)))) /\
  snd (App.app req g) = snd (Main.predict (App.upload req) g).
Proof.
  intros Hm. unfold App.app, App.server_error, App.cors_call, App.routed.
  rewrite Hm. cbn [String.eqb Ascii.eqb Bool.eqb].
  destruct (App.origin req) as [o|].
  - destruct (App.access_control_request_method req); unfold bindM, ret;
      destruct (Main.predict (App.upload req) g) as [[p|e] g']; cbn [fst snd Main.respond];
      [ destruct (confidence p) | destruct e | destruct (confidence p) | destruct e ];
      repeat split; reflexivity.
  - destruct (Main.predict (App.upload req) g) as [[p|e] g']; cbn [fst snd Main.respond];
      [ destruct (confidence p) | destruct e ]; repeat split; reflexivity.
Qed.

(** X12.  The response to a POST of an upload carries
    [Access-Control-Allow-Origin] exactly when the request has an [Origin]
    header with one of the two listed origins and the response has the
    status 200, and the value then is that origin.  The 500 response to an
    upload that does not decode, or whose confidence is NaN, carries no
    such header, even for a listed origin: it is sent outside the CORS
    middleware. *)
Theorem allow_origin_header (g : Globals) (req : App.Request) :
  App.method req = "POST"%string ->
  Headers.get "Access-Control-Allow-Origin" (App.headers (fst (App.app req g))) =
  match App.origin req with
  | Some o =>
      if Cors.mem o App.origins &&
         (Main.status (Main.respond (fst (Main.predict (App.upload req) g))) =? 200)%Z
      then Some o
      else None
  | None => None
  end.
Proof.
  intros Hm.
  unfold App.app, App.server_error, App.cors_call, App.routed.
  rewrite Hm. cbn [String.eqb Ascii.eqb Bool.eqb].
  pose proof (predict_raises g (App.upload req)) as Hexn.
  destruct (App.origin req) as [o|].
  - assert (Hsend : forall r,
              App.headers r = [] ->
              Headers.get "Access-Control-Allow-Origin" (App.headers (App.send App.cors req o r)) =
              if Cors.mem o App.origins then Some o else None).
    { intros r Hr. unfold App.send. rewrite Hr.
      destruct (cors_attributes o o) as (Ho & _ & Hall & _). rewrite Ho, Hall.
      cbn [andb negb]. destruct (Cors.mem o App.origins); reflexivity. }
    assert (Hgoal :
      Headers.get "Access-Control-Allow-Origin"
        (App.headers
           (fst (let (r0, g') :=
                   bindM (fun g0 =>
                            match Main.predict (App.upload req) g0 with
                            | (Ok p, g') =>
                                match confidence p with
                                | Torch.Num _ =>
                                    (Ok {| App.status := 200;
                                           App.content := App.Payload (Main.Json p);
                                           App.headers := [] |}, g')
                                | _ => (Raise ValueError, g')
                                end
                            | (Raise (HTTPException code), g') =>
                                (Ok {| App.status := code;
                                       App.content := App.Payload Main.Detail;
                                       App.headers := [] |}, g')
                            | (Raise e, g') => (Raise e, g')
                            end)
                         (fun r => ret (App.send App.cors req o r)) g in
                 match r0 with
                 | Ok r => (r, g')
                 | Raise _ =>
                     ({| App.status := 500;
                         App.content := App.Payload Main.InternalServerError;
                         App.headers := [] |}, g')
                 end))) =
      (if Cors.mem o App.origins &&
          (Main.status (Main.respond (fst (Main.predict (App.upload req) g))) =? 200)%Z
       then Some o else None)).
    { unfold bindM, ret.
      destruct (Main.predict (App.upload req) g) as [[p|e] g'] eqn:Hp; cbn [fst] in *.
      - cbn [Main.respond]. destruct (confidence p); cbn [fst Main.status Z.eqb Pos.eqb];
          rewrite ?andb_true_r, ?andb_false_r; try reflexivity.
        now apply Hsend.
      - specialize (Hexn e eq_refl). cbn in Hexn.
        destruct Hexn as [<-|[<-|[<-|[<-|[]]]]]; cbn; now rewrite andb_false_r. }
    destruct (App.access_control_request_method req); exact Hgoal.
  - cbv beta.
    destruct (Main.predict (App.upload req) g) as [[p|e] g'] eqn:Hp; cbn [fst] in *.
    + destruct (confidence p); reflexivity.
    + specialize (Hexn e eq_refl). cbn in Hexn.
      destruct Hexn as [<-|[<-|[<-|[<-|[]]]]]; reflexivity.
Qed.

(** X13.  A preflight (an OPTIONS request with an [Origin] and an
    [Access-Control-Request-Method] header) is answered by the middleware
    without running the handler: with 200 when the origin is one of the two
    listed and the requested method is one of the methods that the
    installed release of the library lets ["*"] stand for, and with 400
    otherwise.  The response names the
    origin as allowed exactly when it is listed, and allows whatever
    headers the request asks for. *)
Theorem preflight_answer (req : App.Request) (g : Globals) (o m : string) :
  App.method req = "OPTIONS"%string ->
  App.origin req = Some o ->
  App.access_control_request_method req = Some m ->
  snd (App.app req g) = g /\
  App.status (fst (App.app req g)) =
    (if Cors.mem o App.origins && Cors.mem m starlette_all_methods then 200%Z else 400%Z) /\
  Headers.get "Access-Control-Allow-Origin" (App.headers (fst (App.app req g))) =
    (if Cors.mem o App.origins then Some o else None) /\
  Headers.get "Access-Control-Allow-Headers" (App.headers (fst (App.app req g))) =
    App.access_control_request_headers req.
Proof.
  intros Hm Ho Hacr. unfold App.app, App.server_error, App.cors_call.
  rewrite Hm, Ho, Hacr. cbn [String.eqb Ascii.eqb Bool.eqb]. unfold ret. cbn [fst snd].
  split; [reflexivity|].
  unfold App.preflight_response.
  destruct (cors_attributes o m) as (Hao & Ham & _ & Hah). rewrite Hao, Ham, Hah.
  destruct (Cors.mem o App.origins); destruct (Cors.mem m starlette_all_methods);
    destruct (App.access_control_request_headers req); repeat split; reflexivity.
Qed.

(** X14.  A request with a method other than POST never gets a
    prediction and leaves the globals alone: the handler is not run. *)
Theorem only_post_predicts (req : App.Request) (g : Globals) :
  App.method req <> "POST"%string ->
  snd (App.app req g) = g /\
  forall p, App.content (fst (App.app req g)) <> App.Payload (Main.Json p).
Proof.
  intros Hm. apply String.eqb_neq in Hm.
  unfold App.app, App.server_error, App.cors_call, App.routed. rewrite Hm.
  destruct (App.origin req) as [o|]; [|split; [reflexivity | discriminate]].
  destruct (String.eqb (App.method req) "OPTIONS");
    destruct (App.access_control_request_method req) as [m|];
    unfold bindM, ret; cbn [fst snd]; split; try reflexivity; try discriminate.
  intros p. unfold App.preflight_response.
  destruct (Cors.is_allowed_origin App.cors o);
    destruct (Cors.mem m (Cors.allow_methods App.cors));
    destruct (App.access_control_request_headers req); discriminate.
Qed.
End AppFacts.

(** * The further properties on the test doubles *)

Section MoreRuns.
#[local] Existing Instance Fixture.runtime.
Local Open Scope R_scope.

Lemma confidence_at_least_one_over_classes_witness :
  Main.startup (Pickled Fixture.model_pth) = Ok Fixture.globals /\
  Image_open Fixture.red_pixel_ppm = Some (solid_pixel 255 0 0) /\
  exists p,
    fst (Main.predict Fixture.red_pixel_ppm Fixture.globals) = Ok p /\
    le32 (Torch.Num (/ INR Main.NUM_CLASSES)) (confidence p).
Proof.
  split; [reflexivity|]. split; [reflexivity|].
  destruct (confidence_at_least_one_over_classes
              (Pickled Fixture.model_pth) Fixture.globals
              Fixture.red_pixel_ppm (solid_pixel 255 0 0) fixture_startup fixture_red_pixel)
    as (t & logits & p & _ & Hfw & Hp & Hconf).
  exists p. split; [exact Hp|].
  apply Hconf. exact (proj2 (fixture_logits t logits Hfw)).
Defined.

Lemma predict_ignores_logit_shift_witness :
  (forall t, fst (Nn.forward (g_model Samples.globals_shifted) [t]) =
             map (map (Torch.add 1)) (fst (Nn.forward (g_model Fixture.globals) [t]))) /\
  fst (Main.predict Fixture.red_pixel_ppm Samples.globals_shifted) =
  fst (Main.predict Fixture.red_pixel_ppm Fixture.globals).
Proof.
  split; [intros t; reflexivity|].
  apply (predict_ignores_logit_shift Fixture.globals Samples.globals_shifted 1
           Fixture.red_pixel_ppm);
    first [reflexivity | intros t; reflexivity].
Defined.

Lemma responses_are_independent_witness :
  Main.startup (Pickled Fixture.model_pth) = Ok Fixture.globals /\
  Main.handle_all (Main.Serving Fixture.globals) [Fixture.hello_txt; Fixture.red_pixel_ppm] =
  ([Some (Main.respond (fst (Main.predict Fixture.hello_txt Fixture.globals)));
    Some (Main.respond (fst (Main.predict Fixture.red_pixel_ppm Fixture.globals)))],
   Main.Serving Fixture.globals).
Proof.
  split; [reflexivity|].
  apply (responses_are_independent (Pickled Fixture.model_pth) Fixture.globals
           [Fixture.hello_txt; Fixture.red_pixel_ppm]).
  reflexivity.
Defined.

Lemma transform_output_shape_witness :
  well_shaped (solid_pixel 255 0 0) /\
  exists t,
    T.call Main.transform (solid_pixel 255 0 0) = Ok t /\
    List.length t = 3%nat /\
    Forall (plane_shape 224 224) t.
Proof.
  assert (Hws : well_shaped (solid_pixel 255 0 0)).
  { unfold well_shaped, plane_shape. cbn. repeat constructor. }
  split; [exact Hws|].
  apply (transform_output_shape (solid_pixel 255 0 0)); [reflexivity | exact Hws].
Defined.

Lemma transform_output_range_witness :
  eight_bit (solid_pixel 255 0 0) /\
  exists t,
    T.call Main.transform (solid_pixel 255 0 0) = Ok t /\
    forall c i j v,
      tensor_at t c i j = Some v ->
      (normalized c 0 <= v <= normalized c 255)%Q.
Proof.
  assert (H8 : eight_bit (solid_pixel 255 0 0)).
  { unfold eight_bit. cbn. repeat constructor; lia. }
  split; [exact H8|].
  apply (transform_output_range (solid_pixel 255 0 0)); [reflexivity | exact H8].
Defined.

Lemma transform_needs_three_bands_witness :
  List.length (PIL.im_bands Samples.grey_pixel) = 1%nat /\
  T.call Main.transform Samples.grey_pixel = Raise RuntimeError.
Proof.
  split; [reflexivity|].
  apply (transform_needs_three_bands Samples.grey_pixel); [|discriminate].
  unfold eight_bit. cbn. repeat constructor; lia.
Defined.

Lemma transform_at_target_size_witness :
  PIL.im_size Samples.full_size = (224, 224)%nat /\
  exists t,
    T.call Main.transform Samples.full_size = Ok t /\
    forall c i j,
      tensor_at t c i j = option_map (normalized c) (sample_at Samples.full_size c i j).
Proof.
  split; [reflexivity|].
  apply (transform_at_target_size Samples.full_size); reflexivity.
Defined.

Lemma fixture_loadable : loadable Main.NUM_CLASSES Fixture.model_pth.
Proof.
  split.
  - intros k shp Hin. cbn in Hin.
    destruct Hin as [[= <- <-]|[[= <- <-]|[[= <- <-]|[]]]]; eexists; split; reflexivity.
  - intros k p Hin. cbn in Hin. cbn.
    destruct Hin as [[= <- _]|[[= <- _]|[[= <- _]|[]]]]; tauto.
Qed.

Lemma startup_loads_state_dict_witness :
  loadable Main.NUM_CLASSES Fixture.model_pth /\
  Main.startup (Pickled Fixture.model_pth) = Ok Fixture.globals.
Proof.
  split; [exact fixture_loadable|].
  exact (proj1 (startup_loads_state_dict Fixture.model_pth) fixture_loadable).
Defined.

Lemma app_answers_as_handler_witness :
  App.method Samples.post_foreign = "POST"%string /\
  App.status (fst (App.app Samples.post_foreign Fixture.globals)) =
    Main.status (Main.respond (fst (Main.predict Fixture.red_pixel_ppm Fixture.globals))).
Proof.
  split; [reflexivity|].
  apply (app_answers_as_handler Samples.post_foreign Fixture.globals). reflexivity.
Defined.

Lemma allow_origin_header_witness :
  App.method Samples.post_local = "POST"%string /\
  Headers.get "Access-Control-Allow-Origin"
    (App.headers (fst (App.app Samples.post_local Fixture.globals))) =
  if (Main.status (Main.respond (fst (Main.predict Fixture.red_pixel_ppm Fixture.globals)))
      =? 200)%Z
  then Some "http://localhost:5173"%string
  else None.
Proof.
  split; [reflexivity|].
  exact (allow_origin_header Fixture.globals Samples.post_local eq_refl).
Defined.

Lemma preflight_answer_witness :
  App.method Samples.preflight_local = "OPTIONS"%string /\
  App.status (fst (App.app Samples.preflight_local Fixture.globals)) = 200%Z /\
  Headers.get "Access-Control-Allow-Origin"
    (App.headers (fst (App.app Samples.preflight_local Fixture.globals))) =
  Some "http://localhost:5173"%string.
Proof.
  split; [reflexivity|].
  destruct (preflight_answer Samples.preflight_local Fixture.globals
              "http://localhost:5173" "POST" eq_refl eq_refl eq_refl) as (_ & Hst & Hao & _).
  split; [exact Hst | exact Hao].
Defined.

Lemma only_post_predicts_witness :
  App.method Samples.get_local <> "POST"%string /\
  snd (App.app Samples.get_local Fixture.globals) = Fixture.globals.
Proof.
  assert (Hm : App.method Samples.get_local <> "POST"%string) by discriminate.
  split; [exact Hm|].
  apply (only_post_predicts Samples.get_local Fixture.globals Hm).
Defined.
End MoreRuns.

(** * From the decoded image to the input of the network *)

Section ConversionFacts.

Lemma map_plane_shape {A B : Type} (f : A -> B) (w h : nat) (p : list (list A)) :
  plane_shape w h p -> plane_shape w h (PIL.map_plane f p).
Proof.
  intros [Hh Hw]. unfold plane_shape, PIL.map_plane. split.
  - now rewrite length_map.
  - apply Forall_forall. intros row Hrow. apply in_map_iff in Hrow.
    destruct Hrow as [row' [<- Hin]]. rewrite length_map.
    rewrite Forall_forall in Hw. now apply Hw.
Qed.

Lemma map_plane_bytes (f : Z -> Z) (p : PIL.plane) :
  (forall s, (0 <= f s <= 255)%Z) ->
  Forall (Forall (fun s => (0 <= s <= 255)%Z)) (PIL.map_plane f p).
Proof.
  intros Hf. unfold PIL.map_plane. apply Forall_forall. intros row Hrow.
  apply in_map_iff in Hrow. destruct Hrow as [row' [<- _]].
  apply Forall_forall. intros s Hs. apply in_map_iff in Hs.
  destruct Hs as [s' [<- _]]. apply Hf.
Qed.

Lemma palette_entry_bytes (im : PIL.Image) (i : Z) :
  valid_image im ->
  (0 <= fst (fst (PIL.palette_entry im i)) <= 255)%Z /\
  (0 <= snd (fst (PIL.palette_entry im i)) <= 255)%Z /\
  (0 <= snd (PIL.palette_entry im i) <= 255)%Z.
Proof.
  intros (_ & _ & _ & Hpal). unfold PIL.palette_entry.
  destruct (nth_in_or_default (Z.to_nat i) (PIL.im_palette im) (0, 0, 0)%Z) as [Hin| ->].
  - rewrite Forall_forall in Hpal. now apply Hpal.
  - cbn. lia.
Qed.

(** Conversion to RGB of a valid image of any mode: three bands of the
    size of the image, with bytes as samples. *)
Lemma convert_RGB_valid (im : PIL.Image) :
  valid_image im ->
  List.length (PIL.im_bands (PIL.convert_RGB im)) = 3%nat /\
  well_shaped (PIL.convert_RGB im) /\
  eight_bit (PIL.convert_RGB im).
Proof.
  intros Hv. pose proof Hv as (Hlen & Hws & H8 & _).
  unfold well_shaped, eight_bit, PIL.convert_RGB, PIL.band in *.
  cbn [PIL.im_bands PIL.im_size].
  destruct (PIL.im_mode im); cbn [mode_bands] in Hlen;
    destruct (PIL.im_bands im) as [|b0 [|b1 [|b2 [|b3 [|b4 bs]]]]]; try discriminate;
    cbn [nth];
    repeat match goal with
           | H : Forall _ (_ :: _) |- _ => inversion H; clear H; subst
           end;
    (split; [reflexivity|]); split;
    (apply Forall_cons; [|apply Forall_cons; [|apply Forall_cons; [|apply Forall_nil]]]);
    first [ assumption
          | apply map_plane_shape; assumption
          | apply map_plane_bytes; intros s; destruct (s =? 0)%Z; lia
          | apply map_plane_bytes; intros s; apply (palette_entry_bytes im s Hv) ].
Qed.

(** X15.  For a decoded image of any of the modes, of any size, the
    handler's conversion and transform give the network a tensor of 3
    planes of 224 rows of 224 entries, and every entry of channel [c] lies
    between [(0 - mean_c) / std_c] and [(1 - mean_c) / std_c]. *)
Theorem network_input_shape_and_range (im : PIL.Image) :
  valid_image im ->
  exists t,
    T.call Main.transform (PIL.convert_RGB im) = Ok t /\
    List.length t = 3%nat /\
    Forall (plane_shape 224 224) t /\
    forall c i j v,
      tensor_at t c i j = Some v ->
      (normalized c 0 <= v <= normalized c 255)%Q.
Proof.
  intros Hv. destruct (convert_RGB_valid im Hv) as (Hlen & Hws & H8).
  set (rgb := PIL.convert_RGB im) in *.
  destruct (transform_three_bands rgb Hlen) as (r0 & r1 & r2 & Hb & Ht).
  destruct (transform_pointwise rgb Hlen) as (t & Ht' & Hpt).
  exists t. split; [exact Ht'|].
  assert (Heq : t = [PIL.map_plane (normalized 0) r0; PIL.map_plane (normalized 1) r1;
                     PIL.map_plane (normalized 2) r2]) by congruence.
  split; [now rewrite Heq|]. split.
  - pose proof (resize_well_shaped 224 224 rgb Hws) as Hsh.
    unfold T.Resize in Hb. cbn [fst snd] in Hb. rewrite Hb in Hsh.
    inversion Hsh as [|? ? H0 Hsh1]; subst. inversion Hsh1 as [|? ? H1 Hsh2]; subst.
    inversion Hsh2 as [|? ? H2 _]; subst.
    apply Forall_cons; [|apply Forall_cons; [|apply Forall_cons; [|apply Forall_nil]]];
      now apply map_plane_shape.
  - intros c i j v Hval. rewrite Hpt in Hval.
    destruct (sample_at (T.Resize (224, 224)%nat rgb) c i j) as [s|] eqn:Hs; [|discriminate].
    cbn [option_map] in Hval. injection Hval as <-.
    assert (Hc : (c < 3)%nat).
    { unfold sample_at in Hs. rewrite Hb in Hs.
      destruct c as [|[|[|c]]]; try lia. cbn [nth_error] in Hs. now destruct c. }
    pose proof (sample_at_eight_bit _ c i j s (resize_eight_bit _ rgb H8) Hs) as [Hlo Hhi].
    split; now apply normalized_monotone.
Qed.
End ConversionFacts.

Section ConversionRuns.
Lemma grey_pixel_valid : valid_image Samples.grey_pixel.
Proof.
  unfold valid_image, well_shaped, eight_bit, plane_shape. cbn.
  repeat split; repeat constructor; lia.
Qed.

Lemma network_input_shape_and_range_witness :
  valid_image Samples.grey_pixel /\
  exists t,
    T.call Main.transform (PIL.convert_RGB Samples.grey_pixel) = Ok t /\
    List.length t = 3%nat /\
    Forall (plane_shape 224 224) t.
Proof.
  split; [exact grey_pixel_valid|].
  destruct (network_input_shape_and_range Samples.grey_pixel grey_pixel_valid)
    as (t & Ht & Hlen & Hsh & _).
  exists t. repeat split; assumption.
Defined.
End ConversionRuns.
